(** * Verification of the authentication core of ms-365-mcp-server

    A shallow embedding of [src/auth.ts]: the scope resolver
    ([buildScopesFromEndpoints]) as pure functions over the operation
    catalog, and the [AuthManager] class as a state-and-exception monad over
    the manager's fields, the identity-provider client, the keychain and the
    file system. *)

From Stdlib Require Import Ascii String ZArith.
From stdpp Require Import base option list strings gmap pretty.

Open Scope string_scope.


(** ** JavaScript values used by the module *)

Module Js.

(** Truthiness of a [string | null]: null and the empty string are falsy. *)
Definition truthy_string (v : option string) : bool :=
  match v with
  | Some EmptyString => false
  | Some _ => true
  | None => false
  end.

(** Truthiness of a [number | null]; time values are integers, so the only
    falsy number is zero. *)
Definition truthy_number (v : option Z) : bool :=
  match v with
  | Some 0%Z => false
  | Some _ => true
  | None => false
  end.

(** Truthiness of an optional boolean property ([undefined] is falsy). *)
Definition truthy_flag (v : option bool) : bool :=
  match v with
  | Some b => b
  | None => false
  end.

(** A [string | null] inside a template literal. *)
Definition template (v : option string) : string :=
  match v with
  | Some s => s
  | None => "null"
  end.

(** [Array.prototype.join]. *)
Fixpoint join (sep : string) (xs : list string) : string :=
  match xs with
  | [] => EmptyString
  | [x] => x
  | x :: rest => x +:+ sep +:+ join sep rest
  end.

(** [Array.prototype.find]. *)
Fixpoint find {A} (p : A → bool) (xs : list A) : option A :=
  match xs with
  | [] => None
  | x :: rest => if p x then Some x else find p rest
  end.

(** A [Set<string>]: distinct members kept in insertion order, which is the
    order [Array.from] returns them in. *)
Definition StringSet := list string.

Definition has (s : StringSet) (x : string) : bool := bool_decide (x ∈ s).

Definition add (s : StringSet) (x : string) : StringSet :=
  if has s x then s else (s ++ [x])%list.

Definition delete (s : StringSet) (x : string) : StringSet :=
  filter (λ y, y ≠ x) s.

End Js.

(** ** The operation catalog and the scope resolver *)

Module Endpoint.

(** [EndpointConfig]; an optional property that is missing is [None]. *)
Record EndpointConfig := Build {
  pathPattern : string;
  method : string;
  toolName : string;
  scopes : option (list string);
  requiresWorkAccount : option bool
}.

End Endpoint.

Abbreviation EndpointConfig := Endpoint.EndpointConfig.
Abbreviation endpoint := Endpoint.Build.

(** [endpoints.json], the catalog the module reads when it is loaded; only
    the five properties of [EndpointConfig] are kept. *)
Definition endpointsData : list EndpointConfig := [
  endpoint "/me/messages" "get" "list-mail-messages" (Some ["Mail.Read"]) None;
  endpoint "/me/mailFolders" "get" "list-mail-folders" (Some ["Mail.Read"]) None;
  endpoint "/me/mailFolders/{mailFolder-id}/messages" "get" "list-mail-folder-messages" (Some ["Mail.Read"]) None;
  endpoint "/me/messages/{message-id}" "get" "get-mail-message" (Some ["Mail.Read"]) None;
  endpoint "/me/sendMail" "post" "send-mail" (Some ["Mail.Send"]) None;
  endpoint "/me/messages" "post" "create-draft-email" (Some ["Mail.ReadWrite"]) None;
  endpoint "/me/messages/{message-id}" "delete" "delete-mail-message" (Some ["Mail.ReadWrite"]) None;
  endpoint "/me/messages/{message-id}/move" "post" "move-mail-message" (Some ["Mail.ReadWrite"]) None;
  endpoint "/me/events" "get" "list-calendar-events" (Some ["Calendars.Read"]) None;
  endpoint "/me/events/{event-id}" "get" "get-calendar-event" (Some ["Calendars.Read"]) None;
  endpoint "/me/events" "post" "create-calendar-event" (Some ["Calendars.ReadWrite"]) None;
  endpoint "/me/events/{event-id}" "patch" "update-calendar-event" (Some ["Calendars.ReadWrite"]) None;
  endpoint "/me/events/{event-id}" "delete" "delete-calendar-event" (Some ["Calendars.ReadWrite"]) None;
  endpoint "/me/calendarView" "get" "get-calendar-view" (Some ["Calendars.Read"]) None;
  endpoint "/me/calendars" "get" "list-calendars" (Some ["Calendars.Read"]) None;
  endpoint "/me/drives" "get" "list-drives" (Some ["Files.Read"]) None;
  endpoint "/drives/{drive-id}/root" "get" "get-drive-root-item" (Some ["Files.Read"]) None;
  endpoint "/drives/{drive-id}/root" "get" "get-root-folder" (Some ["Files.Read"]) None;
  endpoint "/drives/{drive-id}/items/{driveItem-id}/children" "get" "list-folder-files" (Some ["Files.Read"]) None;
  endpoint "/drives/{drive-id}/items/{driveItem-id}/children/{driveItem-id1}/content" "get" "download-onedrive-file-content" (Some ["Files.Read"]) None;
  endpoint "/drives/{drive-id}/items/{driveItem-id}" "delete" "delete-onedrive-file" (Some ["Files.ReadWrite"]) None;
  endpoint "/drives/{drive-id}/items/{driveItem-id}/content" "put" "upload-file-content" (Some ["Files.ReadWrite"]) None;
  endpoint "/drives/{drive-id}/items/{driveItem-id}/workbook/worksheets/{workbookWorksheet-id}/charts/add" "post" "create-excel-chart" (Some ["Files.ReadWrite"]) None;
  endpoint "/drives/{drive-id}/items/{driveItem-id}/workbook/worksheets/{workbookWorksheet-id}/range()/format" "patch" "format-excel-range" (Some ["Files.ReadWrite"]) None;
  endpoint "/drives/{drive-id}/items/{driveItem-id}/workbook/worksheets/{workbookWorksheet-id}/range()/sort" "patch" "sort-excel-range" (Some ["Files.ReadWrite"]) None;
  endpoint "/drives/{drive-id}/items/{driveItem-id}/workbook/worksheets/{workbookWorksheet-id}/range(address='{address}')" "get" "get-excel-range" (Some ["Files.Read"]) None;
  endpoint "/drives/{drive-id}/items/{driveItem-id}/workbook/worksheets" "get" "list-excel-worksheets" (Some ["Files.Read"]) None;
  endpoint "/me/onenote/notebooks" "get" "list-onenote-notebooks" (Some ["Notes.Read"]) None;
  endpoint "/me/onenote/notebooks/{notebook-id}/sections" "get" "list-onenote-notebook-sections" (Some ["Notes.Read"]) None;
  endpoint "/me/onenote/sections/{onenoteSection-id}/pages" "get" "list-onenote-section-pages" (Some ["Notes.Read"]) None;
  endpoint "/me/onenote/pages/{onenotePage-id}/content" "get" "get-onenote-page-content" (Some ["Notes.Read"]) None;
  endpoint "/me/onenote/pages" "post" "create-onenote-page" (Some ["Notes.Create"]) None;
  endpoint "/me/todo/lists" "get" "list-todo-task-lists" (Some ["Tasks.Read"]) None;
  endpoint "/me/todo/lists/{todoTaskList-id}/tasks" "get" "list-todo-tasks" (Some ["Tasks.Read"]) None;
  endpoint "/me/todo/lists/{todoTaskList-id}/tasks/{todoTask-id}" "get" "get-todo-task" (Some ["Tasks.Read"]) None;
  endpoint "/me/todo/lists/{todoTaskList-id}/tasks" "post" "create-todo-task" (Some ["Tasks.ReadWrite"]) None;
  endpoint "/me/todo/lists/{todoTaskList-id}/tasks/{todoTask-id}" "patch" "update-todo-task" (Some ["Tasks.ReadWrite"]) None;
  endpoint "/me/todo/lists/{todoTaskList-id}/tasks/{todoTask-id}" "delete" "delete-todo-task" (Some ["Tasks.ReadWrite"]) None;
  endpoint "/me/planner/tasks" "get" "list-planner-tasks" (Some ["Tasks.Read"]) None;
  endpoint "/planner/plans/{plannerPlan-id}" "get" "get-planner-plan" (Some ["Tasks.Read"]) None;
  endpoint "/planner/plans/{plannerPlan-id}/tasks" "get" "list-plan-tasks" (Some ["Tasks.Read"]) None;
  endpoint "/planner/tasks/{plannerTask-id}" "get" "get-planner-task" (Some ["Tasks.Read"]) None;
  endpoint "/planner/tasks" "post" "create-planner-task" (Some ["Tasks.ReadWrite"]) None;
  endpoint "/planner/tasks/{plannerTask-id}" "patch" "update-planner-task" (Some ["Tasks.ReadWrite"]) None;
  endpoint "/planner/tasks/{plannerTask-id}/details" "patch" "update-planner-task-details" (Some ["Tasks.ReadWrite"]) None;
  endpoint "/me/contacts" "get" "list-outlook-contacts" (Some ["Contacts.Read"]) None;
  endpoint "/me/contacts/{contact-id}" "get" "get-outlook-contact" (Some ["Contacts.Read"]) None;
  endpoint "/me/contacts" "post" "create-outlook-contact" (Some ["Contacts.ReadWrite"]) None;
  endpoint "/me/contacts/{contact-id}" "patch" "update-outlook-contact" (Some ["Contacts.ReadWrite"]) None;
  endpoint "/me/contacts/{contact-id}" "delete" "delete-outlook-contact" (Some ["Contacts.ReadWrite"]) None;
  endpoint "/me" "get" "get-current-user" (Some ["User.Read"]) None;
  endpoint "/me/chats" "get" "list-chats" (Some ["Chat.Read"]) (Some true);
  endpoint "/chats/{chat-id}" "get" "get-chat" (Some ["Chat.Read"]) (Some true);
  endpoint "/chats/{chat-id}/messages" "get" "list-chat-messages" (Some ["ChatMessage.Read"]) (Some true);
  endpoint "/chats/{chat-id}/messages/{chatMessage-id}" "get" "get-chat-message" (Some ["ChatMessage.Read"]) (Some true);
  endpoint "/chats/{chat-id}/messages" "post" "send-chat-message" (Some ["ChatMessage.Send"]) (Some true);
  endpoint "/me/joinedTeams" "get" "list-joined-teams" (Some ["Team.ReadBasic.All"]) (Some true);
  endpoint "/teams/{team-id}" "get" "get-team" (Some ["Team.ReadBasic.All"]) (Some true);
  endpoint "/teams/{team-id}/channels" "get" "list-team-channels" (Some ["Channel.ReadBasic.All"]) (Some true);
  endpoint "/teams/{team-id}/channels/{channel-id}" "get" "get-team-channel" (Some ["Channel.ReadBasic.All"]) (Some true);
  endpoint "/teams/{team-id}/channels/{channel-id}/messages" "get" "list-channel-messages" (Some ["ChannelMessage.Read.All"]) (Some true);
  endpoint "/teams/{team-id}/channels/{channel-id}/messages/{chatMessage-id}" "get" "get-channel-message" (Some ["ChannelMessage.Read.All"]) (Some true);
  endpoint "/teams/{team-id}/channels/{channel-id}/messages" "post" "send-channel-message" (Some ["ChannelMessage.Send"]) (Some true);
  endpoint "/teams/{team-id}/members" "get" "list-team-members" (Some ["TeamMember.Read.All"]) (Some true);
  endpoint "/chats/{chat-id}/messages/{chatMessage-id}/replies" "get" "list-chat-message-replies" (Some ["ChatMessage.Read"]) (Some true);
  endpoint "/chats/{chat-id}/messages/{chatMessage-id}/replies" "post" "reply-to-chat-message" (Some ["ChatMessage.Send"]) (Some true);
  endpoint "/sites" "get" "search-sharepoint-sites" (Some ["Sites.Read.All"]) (Some true);
  endpoint "/sites/{site-id}" "get" "get-sharepoint-site" (Some ["Sites.Read.All"]) (Some true);
  endpoint "/sites/{site-id}/drives" "get" "list-sharepoint-site-drives" (Some ["Sites.Read.All"]) (Some true);
  endpoint "/sites/{site-id}/drives/{drive-id}" "get" "get-sharepoint-site-drive-by-id" (Some ["Sites.Read.All"]) (Some true);
  endpoint "/sites/{site-id}/items" "get" "list-sharepoint-site-items" (Some ["Sites.Read.All"]) (Some true);
  endpoint "/sites/{site-id}/items/{baseItem-id}" "get" "get-sharepoint-site-item" (Some ["Sites.Read.All"]) (Some true);
  endpoint "/sites/{site-id}/lists" "get" "list-sharepoint-site-lists" (Some ["Sites.Read.All"]) (Some true);
  endpoint "/sites/{site-id}/lists/{list-id}" "get" "get-sharepoint-site-list" (Some ["Sites.Read.All"]) (Some true);
  endpoint "/sites/{site-id}/lists/{list-id}/items" "get" "list-sharepoint-site-list-items" (Some ["Sites.Read.All"]) (Some true);
  endpoint "/sites/{site-id}/lists/{list-id}/items/{listItem-id}" "get" "get-sharepoint-site-list-item" (Some ["Sites.Read.All"]) (Some true);
  endpoint "/sites/{site-id}/getByPath(path='{path}')" "get" "get-sharepoint-site-by-path" (Some ["Sites.Read.All"]) (Some true);
  endpoint "/sites/delta()" "get" "get-sharepoint-sites-delta" (Some ["Sites.Read.All"]) (Some true)].

(** [SCOPE_HIERARCHY], in the order [Object.entries] lists it. *)
Definition SCOPE_HIERARCHY : list (string * list string) := [
  ("Mail.ReadWrite", ["Mail.Read"]);
  ("Calendars.ReadWrite", ["Calendars.Read"]);
  ("Files.ReadWrite", ["Files.Read"]);
  ("Tasks.ReadWrite", ["Tasks.Read"]);
  ("Contacts.ReadWrite", ["Contacts.Read"])
].

(** Body of the first [forEach]: one catalog entry's contribution. *)
Definition collect (includeWorkAccountScopes : bool)
    (scopesSet : Js.StringSet) (e : EndpointConfig) : Js.StringSet :=
  if Js.truthy_flag (Endpoint.requiresWorkAccount e)
     && negb includeWorkAccountScopes
  then scopesSet
  else match Endpoint.scopes e with
       | Some scs => fold_left Js.add scs scopesSet
       | None => scopesSet
       end.

(** Body of the second [forEach]: one entry of the hierarchy. *)
Definition collapse (scopesSet : Js.StringSet)
    (entry : string * list string) : Js.StringSet :=
  let '(higherScope, lowerScopes) := entry in
  if forallb (Js.has scopesSet) lowerScopes
  then Js.add (fold_left Js.delete lowerScopes scopesSet) higherScope
  else scopesSet.

(** [buildScopesFromEndpoints], with the module-level catalog and hierarchy
    as explicit arguments. *)
Definition buildScopesWith (hierarchy : list (string * list string))
    (endpoints : list EndpointConfig) (includeWorkAccountScopes : bool)
    : list string :=
  fold_left collapse hierarchy
    (fold_left (collect includeWorkAccountScopes) endpoints []).

Definition buildScopesFromEndpoints (endpoints : list EndpointConfig)
    (includeWorkAccountScopes : bool) : list string :=
  buildScopesWith SCOPE_HIERARCHY endpoints includeWorkAccountScopes.

Definition buildAllScopes (endpoints : list EndpointConfig) : list string :=
  buildScopesFromEndpoints endpoints true.


(** ** Vocabulary of the scope resolver's properties *)

(** The scopes a catalog entry lists. *)
Definition scopes_of (e : EndpointConfig) : list string :=
  default [] (Endpoint.scopes e).

(** The entry is flagged as needing a work account. *)
Definition elevated (e : EndpointConfig) : bool :=
  Js.truthy_flag (Endpoint.requiresWorkAccount e).

(** [scope] is listed by an entry that is not flagged. *)
Definition on_baseline_entry (endpoints : list EndpointConfig)
    (scope : string) : Prop :=
  Exists (λ e, elevated e = false ∧ scope ∈ scopes_of e) endpoints.

(** [scope] is listed by a flagged entry. *)
Definition on_elevated_entry (endpoints : list EndpointConfig)
    (scope : string) : Prop :=
  Exists (λ e, elevated e = true ∧ scope ∈ scopes_of e) endpoints.

(** Every entry that lists [scope] is flagged. *)
Definition only_on_elevated (endpoints : list EndpointConfig)
    (scope : string) : Prop :=
  Forall (λ e, scope ∈ scopes_of e → elevated e = true) endpoints.

(** [scope] is a key of the hierarchy whose lower scopes are all listed by
    entries that are not flagged. *)
Definition added_by_collapsing (endpoints : list EndpointConfig)
    (scope : string) : Prop :=
  Exists (λ entry, entry.1 = scope ∧ Forall (on_baseline_entry endpoints) entry.2)
    SCOPE_HIERARCHY.

(** A hierarchy in which every key subsumes at least one scope and no key
    is itself subsumed by a key. *)
Definition well_formed (hierarchy : list (string * list string)) : Prop :=
  Forall (λ entry,
            entry.2 ≠ [] ∧ Forall (λ other, other.1 ∉ entry.2) hierarchy)
    hierarchy.

(** ** Exceptions and completions *)

(** The two kinds of exception the module meets: [Error] objects (its own
    and its collaborators') and the [ReferenceError] of an unbound name. *)
Inductive Exn :=
| Error (msg : string)
| ReferenceError (msg : string).

(** [(error as Error).message]. *)
Definition message (e : Exn) : string :=
  match e with
  | Error msg => msg
  | ReferenceError msg => msg
  end.

(** ** The identity-provider client ([@azure/msal-node]) *)

Module Msal.

Record AccountInfo := {
  homeAccountId : string;
  username : string
}.

(** [AuthenticationResult]; a [Date] is its time value in milliseconds. *)
Record AuthenticationResult := {
  accessToken : string;
  expiresOn : option Z;
  account : option AccountInfo;
  scopes : list string
}.

Record SilentFlowRequest := {
  request_account : AccountInfo;
  request_scopes : list string
}.

(** What one device-code exchange does: the messages it hands to
    [deviceCodeCallback], then a result, [null], or an exception. *)
Record DeviceCodeOutcome := {
  prompts : list string;
  outcome : Exn + option AuthenticationResult
}.

(** The part of [PublicClientApplication] and of its token cache the
    manager calls. [P] is the client's state; every call that can change
    it returns the new one. *)
Class Client (P : Type) := {
  getAllAccounts : P → list AccountInfo;
  removeAccount : P → AccountInfo → Exn + P;
  serialize : P → string;
  acquireTokenSilent :
    P → SilentFlowRequest → (Exn + AuthenticationResult) * P;
  acquireTokenByDeviceCode : P → list string → DeviceCodeOutcome * P
}.

End Msal.

(** ** The world outside the manager *)

Inductive LogLevel := Info | Warn | Err.

(** What the manager asks of its collaborators, in the order it asks. *)
Inductive Event :=
| Log (level : LogLevel) (text : string)
| ConsoleLog (text : string)
| ProgressCallback (text : string)
| SilentRequest (req : Msal.SilentFlowRequest)
| DeviceCodeRequest (requested : list string)
| KeytarSetPassword (service key password : string)
| KeytarDeletePassword (service key : string)
| WriteFile (path data : string)
| UnlinkFile (path : string).

(** The keychain behind [keytar] holds passwords by service and account
    name. [keychain_faults] scripts its failures: each keytar call takes the
    head, and throws it when it is an exception. [files] is the file system
    by path, [clock] the value of [Date.now()]. *)
Record World := {
  keychain : gmap (string * string) string;
  keychain_faults : list (option Exn);
  files : gmap string string;
  clock : Z;
  trace : list Event
}.

Definition SERVICE_NAME : string := "ms-365-mcp-server".
Definition TOKEN_CACHE_ACCOUNT : string := "msal-token-cache".
Definition SELECTED_ACCOUNT_KEY : string := "selected-account".

(** The fallback files, as paths relative to the module's directory. *)
Definition FALLBACK_PATH : string := "../.token-cache.json".
Definition SELECTED_ACCOUNT_PATH : string := "../.selected-account.json".

(** The names [auth.ts] can refer to: its imports (line 5 imports
    [existsSync] and [readFileSync] from ['fs'], and no namespace or default
    binding), its own declarations, and the globals it uses. *)
Definition module_scope : list string := [
  "PublicClientApplication"; "keytar"; "logger";
  "existsSync"; "readFileSync"; "fileURLToPath"; "path";
  "__filename"; "__dirname"; "endpointsData"; "endpoints";
  "SERVICE_NAME"; "TOKEN_CACHE_ACCOUNT"; "SELECTED_ACCOUNT_KEY";
  "FALLBACK_DIR"; "FALLBACK_PATH"; "SELECTED_ACCOUNT_PATH";
  "DEFAULT_CONFIG"; "SCOPE_HIERARCHY";
  "buildScopesFromEndpoints"; "buildAllScopes"; "AuthManager";
  "process"; "console"; "JSON"; "Date"; "Error"; "Object"; "Array"; "Set";
  "fetch"
].

(** ** [JSON.stringify] of the selected-account pointer *)

Module Json.

Definition dquote : ascii := ascii_of_nat 34.
Definition backslash : ascii := ascii_of_nat 92.

Definition hex_digit (n : nat) : ascii :=
  ascii_of_nat (if Nat.ltb n 10 then 48 + n else 87 + n).

(** One character of a JSON string literal. *)
Definition escape (c : ascii) : string :=
  let n := nat_of_ascii c in
  if Nat.eqb n 34 then String backslash (String dquote EmptyString)
  else if Nat.eqb n 92 then String backslash (String backslash EmptyString)
  else if Nat.eqb n 8 then String backslash "b"
  else if Nat.eqb n 12 then String backslash "f"
  else if Nat.eqb n 10 then String backslash "n"
  else if Nat.eqb n 13 then String backslash "r"
  else if Nat.eqb n 9 then String backslash "t"
  else if Nat.ltb n 32 then
    String backslash
      (String "u" (String "0" (String "0"
        (String (hex_digit (Nat.div n 16))
          (String (hex_digit (Nat.modulo n 16)) EmptyString)))))
  else String c EmptyString.

Fixpoint escape_all (s : string) : string :=
  match s with
  | EmptyString => EmptyString
  | String c rest => escape c +:+ escape_all rest
  end.

Definition quote (s : string) : string :=
  String dquote (escape_all s +:+ String dquote EmptyString).

Definition string_or_null (v : option string) : string :=
  match v with
  | Some s => quote s
  | None => "null"
  end.

(** [JSON.stringify({ accountId: v })]. *)
Definition stringify_accountId (v : option string) : string :=
  "{" +:+ quote "accountId" +:+ ":" +:+ string_or_null v +:+ "}".

End Json.

(** ** The manager's state and the monad of its methods *)

(** How a call ends: with a value, or with a thrown exception. *)
Inductive Completion (A : Type) :=
| Normal (v : A)
| Throw (e : Exn).
Arguments Normal {A} v.
Arguments Throw {A} e.

Section Manager.

Context {P : Type} `{!Msal.Client P}.

(** [endpoints.default], the catalog the module loaded. *)
Variable endpoints : list EndpointConfig.

(** The fields of an [AuthManager]; [config] only reaches the client's
    constructor and is left to [msalApp]. *)
Record AuthManager := {
  scopes : list string;
  msalApp : P;
  accessToken : option string;
  tokenExpiry : option Z;
  oauthToken : option string;
  isOAuthMode : bool;
  selectedAccountId : option string
}.

Record State := {
  this : AuthManager;
  world : World
}.

(** A method body: it reads and writes the state, and its writes stay when
    it throws. *)
Definition Action (A : Type) : Type := State → Completion A * State.

Definition ret {A} (v : A) : Action A := λ st, (Normal v, st).

Definition throw {A} (e : Exn) : Action A := λ st, (Throw e, st).

Definition bind {A B} (c : Action A) (k : A → Action B) : Action B :=
  λ st, match c st with
        | (Normal v, st') => k v st'
        | (Throw e, st') => (Throw e, st')
        end.

(** [try { body } catch (error) { handler }]. *)
Definition try_catch {A} (body : Action A) (handler : Exn → Action A)
    : Action A :=
  λ st, match body st with
        | (Normal v, st') => (Normal v, st')
        | (Throw e, st') => handler e st'
        end.

Notation "'let*' x := c 'in' k" := (bind c (λ x, k))
  (at level 10, x name, c at level 100, k at level 200).

Notation "c ;;; k" := (bind c (λ _, k))
  (at level 100, k at level 200, right associativity).

Definition get_this : Action AuthManager := λ st, (Normal (this st), st).

Definition get_world : Action World := λ st, (Normal (world st), st).

Definition update_this (f : AuthManager → AuthManager) : Action unit :=
  λ st, (Normal tt, {| this := f (this st); world := world st |}).

Definition update_world (f : World → World) : Action unit :=
  λ st, (Normal tt, {| this := this st; world := f (world st) |}).

(** [for (const x of xs) { await body(x) }]. *)
Fixpoint for_of {A} (xs : list A) (body : A → Action unit) : Action unit :=
  match xs with
  | [] => ret tt
  | x :: rest => body x ;;; for_of rest body
  end.

(** *** Field assignments *)

Definition with_scopes (v : list string) (m : AuthManager) : AuthManager :=
  {| scopes := v; msalApp := msalApp m; accessToken := accessToken m;
     tokenExpiry := tokenExpiry m; oauthToken := oauthToken m;
     isOAuthMode := isOAuthMode m;
     selectedAccountId := selectedAccountId m |}.

Definition with_msalApp (v : P) (m : AuthManager) : AuthManager :=
  {| scopes := scopes m; msalApp := v; accessToken := accessToken m;
     tokenExpiry := tokenExpiry m; oauthToken := oauthToken m;
     isOAuthMode := isOAuthMode m;
     selectedAccountId := selectedAccountId m |}.

Definition with_accessToken (v : option string) (m : AuthManager)
    : AuthManager :=
  {| scopes := scopes m; msalApp := msalApp m; accessToken := v;
     tokenExpiry := tokenExpiry m; oauthToken := oauthToken m;
     isOAuthMode := isOAuthMode m;
     selectedAccountId := selectedAccountId m |}.

Definition with_tokenExpiry (v : option Z) (m : AuthManager)
    : AuthManager :=
  {| scopes := scopes m; msalApp := msalApp m;
     accessToken := accessToken m; tokenExpiry := v;
     oauthToken := oauthToken m; isOAuthMode := isOAuthMode m;
     selectedAccountId := selectedAccountId m |}.

Definition with_oauthToken (v : option string) (m : AuthManager)
    : AuthManager :=
  {| scopes := scopes m; msalApp := msalApp m;
     accessToken := accessToken m; tokenExpiry := tokenExpiry m;
     oauthToken := v; isOAuthMode := isOAuthMode m;
     selectedAccountId := selectedAccountId m |}.

Definition with_isOAuthMode (v : bool) (m : AuthManager) : AuthManager :=
  {| scopes := scopes m; msalApp := msalApp m;
     accessToken := accessToken m; tokenExpiry := tokenExpiry m;
     oauthToken := oauthToken m; isOAuthMode := v;
     selectedAccountId := selectedAccountId m |}.

Definition with_selectedAccountId (v : option string) (m : AuthManager)
    : AuthManager :=
  {| scopes := scopes m; msalApp := msalApp m;
     accessToken := accessToken m; tokenExpiry := tokenExpiry m;
     oauthToken := oauthToken m; isOAuthMode := isOAuthMode m;
     selectedAccountId := v |}.

Definition with_keychain (v : gmap (string * string) string) (w : World)
    : World :=
  {| keychain := v; keychain_faults := keychain_faults w;
     files := files w; clock := clock w; trace := trace w |}.

Definition with_keychain_faults (v : list (option Exn)) (w : World)
    : World :=
  {| keychain := keychain w; keychain_faults := v; files := files w;
     clock := clock w; trace := trace w |}.

Definition with_files (v : gmap string string) (w : World) : World :=
  {| keychain := keychain w; keychain_faults := keychain_faults w;
     files := v; clock := clock w; trace := trace w |}.

Definition with_trace (v : list Event) (w : World) : World :=
  {| keychain := keychain w; keychain_faults := keychain_faults w;
     files := files w; clock := clock w; trace := v |}.

(** *** Collaborator calls *)

Definition emit (e : Event) : Action unit :=
  update_world (λ w, with_trace (trace w ++ [e])%list w).

Definition logger_info (text : string) : Action unit := emit (Log Info text).
Definition logger_warn (text : string) : Action unit := emit (Log Warn text).
Definition logger_error (text : string) : Action unit := emit (Log Err text).

(** [Date.now()]. *)
Definition Date_now : Action Z :=
  let* w := get_world in ret (clock w).

(** Evaluating an identifier: a name outside [module_scope] throws. *)
Definition identifier (name : string) : Action unit :=
  if bool_decide (name ∈ module_scope) then ret tt
  else throw (ReferenceError (name +:+ " is not defined")).

(** One keytar call: it throws when the keychain's script says so, and
    otherwise runs [op] on the entries. *)
Definition keytar_call {A}
    (op : gmap (string * string) string
          → A * gmap (string * string) string) : Action A :=
  let* w := get_world in
  let run :=
    let '(v, entries) := op (keychain w) in
    update_world (with_keychain entries) ;;; ret v in
  match keychain_faults w with
  | Some e :: rest => update_world (with_keychain_faults rest) ;;; throw e
  | None :: rest => update_world (with_keychain_faults rest) ;;; run
  | [] => run
  end.

Definition keytar_setPassword (service key password : string)
    : Action unit :=
  emit (KeytarSetPassword service key password) ;;;
  keytar_call (λ entries, (tt, <[(service, key) := password]> entries)).

(** [keytar.deletePassword] answers whether there was an entry. *)
Definition keytar_deletePassword (service key : string) : Action bool :=
  emit (KeytarDeletePassword service key) ;;;
  keytar_call (λ entries,
    (bool_decide (is_Some (entries !! (service, key))),
     delete (service, key) entries)).

(** The three members of the ['fs'] module the manager names through the
    identifier [fs]; the identifier is evaluated first. *)
Definition fs_writeFileSync (path data : string) : Action unit :=
  identifier "fs" ;;;
  emit (WriteFile path data) ;;;
  update_world (λ w, with_files (<[path := data]> (files w)) w).

Definition fs_existsSync (path : string) : Action bool :=
  identifier "fs" ;;;
  let* w := get_world in
  ret (bool_decide (is_Some (files w !! path))).

Definition fs_unlinkSync (path : string) : Action unit :=
  identifier "fs" ;;;
  emit (UnlinkFile path) ;;;
  let* w := get_world in
  match files w !! path with
  | Some _ => update_world (λ w, with_files (delete path (files w)) w)
  | None =>
      throw (Error ("ENOENT: no such file or directory, unlink '"
                    +:+ path +:+ "'"))
  end.

(** [this.msalApp.getTokenCache().getAllAccounts()]. *)
Definition getAllAccounts : Action (list Msal.AccountInfo) :=
  let* m := get_this in ret (Msal.getAllAccounts (msalApp m)).

(** [this.msalApp.getTokenCache().removeAccount(account)]. *)
Definition cache_removeAccount (account : Msal.AccountInfo) : Action unit :=
  let* m := get_this in
  match Msal.removeAccount (msalApp m) account with
  | inl e => throw e
  | inr p => update_this (with_msalApp p)
  end.

(** [this.msalApp.getTokenCache().serialize()]. *)
Definition cache_serialize : Action string :=
  let* m := get_this in ret (Msal.serialize (msalApp m)).

(** [this.msalApp.acquireTokenSilent(request)]. *)
Definition msal_acquireTokenSilent (req : Msal.SilentFlowRequest)
    : Action Msal.AuthenticationResult :=
  emit (SilentRequest req) ;;;
  let* m := get_this in
  let '(r, p) := Msal.acquireTokenSilent (msalApp m) req in
  update_this (with_msalApp p) ;;;
  match r with
  | inl e => throw e
  | inr response => ret response
  end.

(** [this.msalApp.acquireTokenByDeviceCode(request)]: the client calls
    [deviceCodeCallback] with each message before it settles. *)
Definition msal_acquireTokenByDeviceCode (requested : list string)
    (deviceCodeCallback : string → Action unit)
    : Action (option Msal.AuthenticationResult) :=
  emit (DeviceCodeRequest requested) ;;;
  let* m := get_this in
  let '(d, p) := Msal.acquireTokenByDeviceCode (msalApp m) requested in
  update_this (with_msalApp p) ;;;
  for_of (Msal.prompts d) deviceCodeCallback ;;;
  match Msal.outcome d with
  | inl e => throw e
  | inr response => ret response
  end.

(** *** The methods of [AuthManager] *)

(** The fields the constructor sets; [oauthTokenFromEnv] is
    [process.env.MS365_MCP_OAUTH_TOKEN]. *)
Definition new_AuthManager (client : P) (scopes : list string)
    (oauthTokenFromEnv : option string) : AuthManager :=
  {| scopes := scopes;
     msalApp := client;
     accessToken := None;
     tokenExpiry := None;
     selectedAccountId := None;
     oauthToken := oauthTokenFromEnv;
     isOAuthMode := bool_decide (is_Some oauthTokenFromEnv) |}.

Definition saveTokenCache : Action unit :=
  try_catch
    (let* cacheData := cache_serialize in
     try_catch
       (keytar_setPassword SERVICE_NAME TOKEN_CACHE_ACCOUNT cacheData)
       (λ keytarError,
          logger_warn
            ("Keychain save failed, falling back to file storage: "
             +:+ message keytarError) ;;;
          fs_writeFileSync FALLBACK_PATH cacheData))
    (λ error,
       logger_error ("Error saving token cache: " +:+ message error)).

Definition saveSelectedAccount : Action unit :=
  try_catch
    (let* m := get_this in
     let selectedAccountData :=
       Json.stringify_accountId (selectedAccountId m) in
     try_catch
       (keytar_setPassword SERVICE_NAME SELECTED_ACCOUNT_KEY
          selectedAccountData)
       (λ keytarError,
          logger_warn
            ("Keychain save failed for selected account, falling back to file storage: "
             +:+ message keytarError) ;;;
          fs_writeFileSync SELECTED_ACCOUNT_PATH selectedAccountData))
    (λ error,
       logger_error ("Error saving selected account: " +:+ message error)).

Definition setOAuthToken (token : string) : Action unit :=
  update_this (with_oauthToken (Some token)) ;;;
  update_this (with_isOAuthMode true).

Definition getCurrentAccount : Action (option Msal.AccountInfo) :=
  let* accounts := getAllAccounts in
  if Nat.eqb (length accounts) 0 then ret None
  else
    let* m := get_this in
    let first_account := ret (head accounts) in
    if Js.truthy_string (selectedAccountId m) then
      match Js.find
              (λ account,
                 bool_decide
                   (Some (Msal.homeAccountId account) = selectedAccountId m))
              accounts with
      | Some selectedAccount => ret (Some selectedAccount)
      | None =>
          logger_warn
            ("Selected account " +:+ Js.template (selectedAccountId m)
             +:+ " not found, falling back to first account") ;;;
          first_account
      end
    else first_account.

(** The first guard of [getToken]:
    [this.isOAuthMode && this.oauthToken]. *)
Definition passthrough (m : AuthManager) : bool :=
  isOAuthMode m && Js.truthy_string (oauthToken m).

(** The second guard of [getToken]. *)
Definition cache_hit (m : AuthManager) (now : Z) (forceRefresh : bool)
    : bool :=
  Js.truthy_string (accessToken m)
  && Js.truthy_number (tokenExpiry m)
  && match tokenExpiry m with
     | Some expiry => bool_decide (expiry > now)%Z
     | None => false
     end
  && negb forceRefresh.

(** [response.expiresOn ? new Date(response.expiresOn).getTime() : null];
    a [Date] object is truthy whatever its time. *)
Definition expiry_of (expiresOn : option Z) : option Z := expiresOn.

Definition getToken (forceRefresh : bool) : Action (option string) :=
  let* m := get_this in
  if passthrough m then ret (oauthToken m)
  else
    let* now := Date_now in
    if cache_hit m now forceRefresh then ret (accessToken m)
    else
      let* currentAccount := getCurrentAccount in
      match currentAccount with
      | Some account =>
          let silentRequest :=
            {| Msal.request_account := account;
               Msal.request_scopes := scopes m |} in
          try_catch
            (let* response := msal_acquireTokenSilent silentRequest in
             update_this
               (with_accessToken (Some (Msal.accessToken response))) ;;;
             update_this
               (with_tokenExpiry (expiry_of (Msal.expiresOn response))) ;;;
             let* m := get_this in
             ret (accessToken m))
            (λ error,
               logger_error "Silent token acquisition failed" ;;;
               throw (Error "Silent token acquisition failed"))
      | None => throw (Error "No valid token found")
      end.

Definition newline : string := String (ascii_of_nat 10) EmptyString.

Definition after_login_hint : string :=
  "After login run the " +:+ String Json.dquote "verify login"
  +:+ String Json.dquote " command".

(** [value || null] for a string. *)
Definition string_or_null (v : option string) : option string :=
  if Js.truthy_string v then v else None.

(** [has_hack] says whether the caller passed the callback [hack]; a call
    of it is recorded as [ProgressCallback]. *)
Definition acquireTokenByDeviceCode (has_hack : bool)
    : Action (option string) :=
  let* m := get_this in
  let requested := scopes m in
  let deviceCodeCallback (msg : string) : Action unit :=
    let text := newline +:+ msg +:+ newline in
    (if has_hack then emit (ProgressCallback (text +:+ after_login_hint))
     else emit (ConsoleLog text)) ;;;
    logger_info "Device code login initiated" in
  try_catch
    (logger_info "Requesting device code..." ;;;
     let* m := get_this in
     logger_info ("Requesting scopes: " +:+ Js.join ", " (scopes m)) ;;;
     let* response :=
       msal_acquireTokenByDeviceCode requested deviceCodeCallback in
     let granted :=
       match response with
       | Some r =>
           let joined := Js.join ", " (Msal.scopes r) in
           if Js.truthy_string (Some joined) then joined else "none"
       | None => "none"
       end in
     logger_info ("Granted scopes: " +:+ granted) ;;;
     logger_info "Device code login successful" ;;;
     update_this
       (with_accessToken
          (string_or_null (Msal.accessToken <$> response))) ;;;
     update_this
       (with_tokenExpiry (response ≫= λ r, expiry_of (Msal.expiresOn r))) ;;;
     let* m := get_this in
     (match response ≫= Msal.account with
      | Some account =>
          if negb (Js.truthy_string (selectedAccountId m)) then
            update_this
              (with_selectedAccountId (Some (Msal.homeAccountId account))) ;;;
            saveSelectedAccount ;;;
            logger_info
              ("Auto-selected new account: " +:+ Msal.username account)
          else ret tt
      | None => ret tt
      end) ;;;
     saveTokenCache ;;;
     let* m := get_this in
     ret (accessToken m))
    (λ error,
       logger_error ("Error in device code flow: " +:+ message error) ;;;
       throw error).

Definition logout : Action bool :=
  try_catch
    (let* accounts := getAllAccounts in
     for_of accounts cache_removeAccount ;;;
     update_this (with_accessToken None) ;;;
     update_this (with_tokenExpiry None) ;;;
     update_this (with_selectedAccountId None) ;;;
     try_catch
       (keytar_deletePassword SERVICE_NAME TOKEN_CACHE_ACCOUNT ;;;
        keytar_deletePassword SERVICE_NAME SELECTED_ACCOUNT_KEY ;;;
        ret tt)
       (λ keytarError,
          logger_warn
            ("Keychain deletion failed: " +:+ message keytarError)) ;;;
     let* token_file := fs_existsSync FALLBACK_PATH in
     (if token_file then fs_unlinkSync FALLBACK_PATH else ret tt) ;;;
     let* selection_file := fs_existsSync SELECTED_ACCOUNT_PATH in
     (if selection_file then fs_unlinkSync SELECTED_ACCOUNT_PATH
      else ret tt) ;;;
     ret true)
    (λ error,
       logger_error ("Error during logout: " +:+ message error) ;;;
       throw error).

Definition expansion_notice : string :=
  "🔄 This feature requires additional permissions (work account scopes)".

Definition expandToWorkAccountScopes (has_hack : bool) : Action bool :=
  try_catch
    (logger_info "Expanding to work account scopes..." ;;;
     let allScopes := buildAllScopes endpoints in
     let deviceCodeCallback (msg : string) : Action unit :=
       let text :=
         newline +:+ expansion_notice +:+ newline +:+ msg +:+ newline in
       (if has_hack then emit (ProgressCallback (text +:+ after_login_hint))
        else emit (ConsoleLog text)) ;;;
       logger_info "Work account scope expansion initiated" in
     let* response :=
       msal_acquireTokenByDeviceCode allScopes deviceCodeCallback in
     logger_info "Work account scope expansion successful" ;;;
     update_this
       (with_accessToken
          (string_or_null (Msal.accessToken <$> response))) ;;;
     update_this
       (with_tokenExpiry (response ≫= λ r, expiry_of (Msal.expiresOn r))) ;;;
     update_this (with_scopes allScopes) ;;;
     (match response ≫= Msal.account with
      | Some account =>
          update_this
            (with_selectedAccountId (Some (Msal.homeAccountId account))) ;;;
          saveSelectedAccount ;;;
          logger_info
            ("Updated selected account after scope expansion: "
             +:+ Msal.username account)
      | None => ret tt
      end) ;;;
     saveTokenCache ;;;
     ret true)
    (λ error,
       logger_error
         ("Error expanding to work account scopes: " +:+ message error) ;;;
       ret false).

Definition listAccounts : Action (list Msal.AccountInfo) := getAllAccounts.

(** [accounts.find((acc) => acc.homeAccountId === accountId)]. *)
Definition find_account (accountId : string)
    (accounts : list Msal.AccountInfo) : option Msal.AccountInfo :=
  Js.find (λ acc, bool_decide (Msal.homeAccountId acc = accountId)) accounts.

Definition not_found (accountId : string) : string :=
  "Account with ID " +:+ accountId +:+ " not found".

Definition selectAccount (accountId : string) : Action bool :=
  let* accounts := listAccounts in
  match find_account accountId accounts with
  | None => logger_error (not_found accountId) ;;; ret false
  | Some account =>
      update_this (with_selectedAccountId (Some accountId)) ;;;
      saveSelectedAccount ;;;
      update_this (with_accessToken None) ;;;
      update_this (with_tokenExpiry None) ;;;
      logger_info
        ("Selected account: " +:+ Msal.username account
         +:+ " (" +:+ accountId +:+ ")") ;;;
      ret true
  end.

Definition getTokenForAccount (accountId : string)
    : Action (option string) :=
  let* accounts := listAccounts in
  match find_account accountId accounts with
  | None => throw (Error (not_found accountId))
  | Some account =>
      let* m := get_this in
      let silentRequest :=
        {| Msal.request_account := account;
           Msal.request_scopes := scopes m |} in
      try_catch
        (let* response := msal_acquireTokenSilent silentRequest in
         ret (Some (Msal.accessToken response)))
        (λ error,
           logger_error
             ("Failed to get token for account " +:+ accountId +:+ ": "
              +:+ message error) ;;;
           throw error)
  end.

Definition removeAccount (accountId : string) : Action bool :=
  let* accounts := listAccounts in
  match find_account accountId accounts with
  | None => logger_error (not_found accountId) ;;; ret false
  | Some account =>
      try_catch
        (cache_removeAccount account ;;;
         let* m := get_this in
         (if bool_decide (selectedAccountId m = Some accountId) then
            update_this (with_selectedAccountId None) ;;;
            saveSelectedAccount ;;;
            update_this (with_accessToken None) ;;;
            update_this (with_tokenExpiry None)
          else ret tt) ;;;
         logger_info
           ("Removed account: " +:+ Msal.username account
            +:+ " (" +:+ accountId +:+ ")") ;;;
         ret true)
        (λ error,
           logger_error
             ("Failed to remove account " +:+ accountId +:+ ": "
              +:+ message error) ;;;
           ret false)
  end.

Definition getSelectedAccountId : Action (option string) :=
  let* m := get_this in ret (selectedAccountId m).

End Manager.

Arguments AuthManager P : clear implicits.
Arguments State P : clear implicits.
Arguments Action P A : clear implicits.

(** ** Vocabulary of the manager's properties *)

(** The two failures of [getToken], by the names the specification gives
    them. *)
Definition NoAccount : Exn := Error "No valid token found".
Definition SilentAcquisitionFailed : Exn :=
  Error "Silent token acquisition failed".

(** What a call added to the trace, given the states around it. *)
Definition events_since {P} (before after : State P) : list Event :=
  drop (length (trace (world before))) (trace (world after)).

(** The silent requests and the device-code requests among some events. *)
Definition silent_requests (events : list Event)
    : list Msal.SilentFlowRequest :=
  omap (λ e, match e with SilentRequest req => Some req | _ => None end)
    events.

Definition device_requests (events : list Event) : list (list string) :=
  omap (λ e, match e with DeviceCodeRequest requested => Some requested
                     | _ => None end)
    events.

(** The event is a call that writes to the keychain or to a file. *)
Definition persists (e : Event) : bool :=
  match e with
  | KeytarSetPassword _ _ _ | KeytarDeletePassword _ _
  | WriteFile _ _ | UnlinkFile _ => true
  | _ => false
  end.

(** The state after some events were added to the trace. *)
Definition traced {P} (events : list Event) (st : State P) : State P :=
  {| this := this st;
     world := with_trace (trace (world st) ++ events) (world st) |}.

(** The world after a save of [data] under [key]. When the keychain
    throws, the handler logs [warning] and evaluates [fs], which throws
    in turn, and the outer handler logs [failure]. *)
Definition after_save (key data warning failure : string) (w : World)
    : World :=
  let attempt := KeytarSetPassword SERVICE_NAME key data in
  match keychain_faults w with
  | Some e :: rest =>
      {| keychain := keychain w; keychain_faults := rest;
         files := files w; clock := clock w;
         trace := ((trace w ++ [attempt])
                   ++ [Log Warn (warning +:+ message e)])
                  ++ [Log Err (failure +:+ "fs is not defined")] |}
  | None :: rest =>
      {| keychain := <[(SERVICE_NAME, key) := data]> (keychain w);
         keychain_faults := rest; files := files w; clock := clock w;
         trace := trace w ++ [attempt] |}
  | [] =>
      {| keychain := <[(SERVICE_NAME, key) := data]> (keychain w);
         keychain_faults := []; files := files w; clock := clock w;
         trace := trace w ++ [attempt] |}
  end.

(** The [n]-th of the keychain's next calls does not throw. *)
Definition accepts (faults : list (option Exn)) (n : nat) : bool :=
  match faults !! n with
  | Some (Some _) => false
  | _ => true
  end.

(** What the callback of [expandToWorkAccountScopes] adds to the trace
    for one message of the client. *)
Definition expansion_prompt (has_hack : bool) (msg : string) : list Event :=
  let text := newline +:+ expansion_notice +:+ newline +:+ msg +:+ newline in
  [if has_hack then ProgressCallback (text +:+ after_login_hint)
   else ConsoleLog text;
   Log Info "Work account scope expansion initiated"].

(** ** A scripted identity-provider client

    A client whose account cache is a list and whose answers to token
    requests are read off two scripts, one answer per call. *)

Module Scripted.

Record Client := {
  accounts : list Msal.AccountInfo;
  silent_answers : list (Exn + Msal.AuthenticationResult);
  device_answers : list Msal.DeviceCodeOutcome
}.

Definition same_account (a b : Msal.AccountInfo) : bool :=
  bool_decide (Msal.homeAccountId a = Msal.homeAccountId b).

Definition removeAccount (c : Client) (a : Msal.AccountInfo) : Exn + Client :=
  inr {| accounts := filter (λ b, same_account a b = false) (accounts c);
         silent_answers := silent_answers c;
         device_answers := device_answers c |}.

Definition serialize (c : Client) : string :=
  "accounts:" +:+ Js.join "," (Msal.homeAccountId <$> accounts c).

Definition acquireTokenSilent (c : Client) (req : Msal.SilentFlowRequest)
    : (Exn + Msal.AuthenticationResult) * Client :=
  match silent_answers c with
  | answer :: rest =>
      (answer,
       {| accounts := accounts c; silent_answers := rest;
          device_answers := device_answers c |})
  | [] => (inl (Error "no_tokens_found"), c)
  end.

(** A successful login adds its account to the cache. *)
Definition signed_in (d : Msal.DeviceCodeOutcome)
    (known : list Msal.AccountInfo) : list Msal.AccountInfo :=
  match Msal.outcome d with
  | inr (Some r) =>
      match Msal.account r with
      | Some a =>
          if existsb (same_account a) known then known
          else (known ++ [a])%list
      | None => known
      end
  | _ => known
  end.

Definition acquireTokenByDeviceCode (c : Client) (requested : list string)
    : Msal.DeviceCodeOutcome * Client :=
  match device_answers c with
  | d :: rest =>
      (d,
       {| accounts := signed_in d (accounts c);
          silent_answers := silent_answers c; device_answers := rest |})
  | [] =>
      ({| Msal.prompts := []; Msal.outcome := inl (Error "expired_token") |},
       c)
  end.

#[global] Instance client : Msal.Client Client := {|
  Msal.getAllAccounts := accounts;
  Msal.removeAccount := removeAccount;
  Msal.serialize := serialize;
  Msal.acquireTokenSilent := acquireTokenSilent;
  Msal.acquireTokenByDeviceCode := acquireTokenByDeviceCode
|}.

End Scripted.

(** ** Sample data for the examples *)

Module Sample.

Definition alice : Msal.AccountInfo :=
  {| Msal.homeAccountId := "id-alice"; Msal.username := "alice@contoso.com" |}.

Definition bob : Msal.AccountInfo :=
  {| Msal.homeAccountId := "id-bob"; Msal.username := "bob@contoso.com" |}.

Definition token_for (a : Msal.AccountInfo) (token : string) (expires : Z)
    : Msal.AuthenticationResult :=
  {| Msal.accessToken := token; Msal.expiresOn := Some expires;
     Msal.account := Some a; Msal.scopes := ["User.Read"] |}.

Definition login (a : Msal.AccountInfo) (token : string) (expires : Z)
    : Msal.DeviceCodeOutcome :=
  {| Msal.prompts := ["Open https://microsoft.com/devicelogin and enter the code"];
     Msal.outcome := inr (Some (token_for a token expires)) |}.

(** A catalog whose only unflagged entry reads mail and whose flagged
    entry writes it. *)
Definition mail_catalog : list EndpointConfig := [
  endpoint "/me/messages" "get" "list-mail-messages" (Some ["Mail.Read"])
    None;
  endpoint "/me/messages" "post" "create-draft-email"
    (Some ["Mail.ReadWrite"]) (Some true)
].

(** A machine with an empty keychain and no fallback files, at time 1000. *)
Definition quiet_world : World :=
  {| keychain := ∅; keychain_faults := []; files := ∅;
     clock := 1000; trace := [] |}.

Definition locked : Exn := Error "keychain is locked".

(** A machine whose keychain refuses the next four calls, and which still
    has the fallback file of an earlier run. *)
Definition locked_world : World :=
  {| keychain := ∅;
     keychain_faults := [Some locked; Some locked; Some locked; Some locked];
     files := {[ FALLBACK_PATH := "accounts:id-alice" ]};
     clock := 1000; trace := [] |}.

Definition fresh (c : Scripted.Client) (w : World) : State Scripted.Client :=
  {| this := new_AuthManager c (buildScopesFromEndpoints endpointsData false)
               None;
     world := w |}.

(** A client that knows alice and bob and answers one silent request. *)
Definition two_accounts : Scripted.Client :=
  {| Scripted.accounts := [alice; bob];
     Scripted.silent_answers := [inr (token_for alice "token-alice" 5000)];
     Scripted.device_answers := [] |}.

(** A manager just constructed over [two_accounts]. *)
Definition started : State Scripted.Client := fresh two_accounts quiet_world.

(** The same manager on the machine with the locked keychain. *)
Definition started_locked : State Scripted.Client :=
  fresh two_accounts locked_world.

(** An empty client at whose device-code prompt alice signs in first and
    bob second. *)
Definition two_logins : Scripted.Client :=
  {| Scripted.accounts := [];
     Scripted.silent_answers := [];
     Scripted.device_answers :=
       [login alice "token-alice" 5000; login bob "token-bob" 9000] |}.

(** The manager after alice signed in through the device-code flow. *)
Definition alice_signed_in : State Scripted.Client :=
  snd (acquireTokenByDeviceCode false (fresh two_logins quiet_world)).

(** The manager after bob signed in as well. *)
Definition both_signed_in : State Scripted.Client :=
  snd (acquireTokenByDeviceCode false alice_signed_in).

(** A manager into which a token was injected. *)
Definition injected (token : string) : State Scripted.Client :=
  snd (setOAuthToken token started).

End Sample.

(** ** The methods that only ask *)

Module Login.

Record UserData := {
  displayName : string;
  userPrincipalName : string
}.

(** [LoginTestResult]. *)
Record Result := {
  success : bool;
  message : string;
  userData : option UserData
}.

(** What [fetch] of [https://graph.microsoft.com/v1.0/me] does: it
    rejects, or it resolves to a response with its [ok] flag, its status,
    what [json()] and the reading of the two properties give or throw,
    and what [text()] gives or throws. *)
Inductive GraphAnswer :=
| Rejects (e : Exn)
| Responds (ok : bool) (status : Z) (json : Exn + UserData)
    (text : Exn + string).

End Login.

Section Queries.

Context {P : Type} `{!Msal.Client P}.

(** [endpoints.default], the catalog the module loaded. *)
Variable endpoints : list EndpointConfig.

Notation "'let*' x := c 'in' k" := (bind c (λ x, k))
  (at level 10, x name, c at level 100, k at level 200).

Notation "c ;;; k" := (bind c (λ _, k))
  (at level 100, k at level 200, right associativity).

(** [endpoints.default.filter((e) => e.requiresWorkAccount)
    .flatMap((e) => e.scopes || [])]. *)
Definition workScopes : list string :=
  flat_map (λ e, default [] (Endpoint.scopes e))
    (filter (λ e, Js.truthy_flag (Endpoint.requiresWorkAccount e) = true)
       endpoints).

Definition hasWorkAccountPermissions : Action P bool :=
  try_catch
    (let* currentAccount := getCurrentAccount in
     match currentAccount with
     | None => ret false
     | Some account =>
         try_catch
           (msal_acquireTokenSilent
              {| Msal.request_scopes := take 1 workScopes;
                 Msal.request_account := account |} ;;;
            ret true)
           (λ _, ret false)
     end)
    (λ error,
       logger_error
         ("Error checking work account permissions: " +:+ message error) ;;;
       ret false).

(** [requiresWorkAccountScope]: [endpoint?.requiresWorkAccount === true]
    for the first entry of that tool name. *)
Definition requiresWorkAccountScope (toolName : string) : bool :=
  match Js.find (λ e, bool_decide (Endpoint.toolName e = toolName))
          endpoints with
  | Some e => bool_decide (Endpoint.requiresWorkAccount e = Some true)
  | None => false
  end.

(** *** [testLogin] *)

(** [graph] is the answer of the Graph endpoint to a request that carries
    the given token. *)
Definition testLogin (graph : string → Login.GraphAnswer)
    : Action P Login.Result :=
  try_catch
    (logger_info "Testing login..." ;;;
     let* token := getToken false in
     if negb (Js.truthy_string token) then
       logger_error "Login test failed - no token received" ;;;
       ret {| Login.success := false;
              Login.message := "Login failed - no token received";
              Login.userData := None |}
     else
       logger_info
         "Token retrieved successfully, testing Graph API access..." ;;;
       try_catch
         (match graph (Js.template token) with
          | Login.Rejects e => throw e
          | Login.Responds true _ json _ =>
              match json with
              | inl e => throw e
              | inr data =>
                  logger_info "Graph API user data fetch successful" ;;;
                  ret {| Login.success := true;
                         Login.message := "Login successful";
                         Login.userData :=
                           Some {| Login.displayName := Login.displayName data;
                                   Login.userPrincipalName :=
                                     Login.userPrincipalName data |} |}
              end
          | Login.Responds false status _ text =>
              match text with
              | inl e => throw e
              | inr errorText =>
                  logger_error
                    ("Graph API user data fetch failed: " +:+ pretty status
                     +:+ " - " +:+ errorText) ;;;
                  ret {| Login.success := false;
                         Login.message :=
                           "Login successful but Graph API access failed: "
                           +:+ pretty status;
                         Login.userData := None |}
              end
          end)
         (λ graphError,
            logger_error
              ("Error fetching user data: " +:+ message graphError) ;;;
            ret {| Login.success := false;
                   Login.message :=
                     "Login successful but Graph API access failed: "
                     +:+ message graphError;
                   Login.userData := None |}))
    (λ error,
       logger_error ("Login test failed: " +:+ message error) ;;;
       ret {| Login.success := false;
              Login.message := "Login failed: " +:+ message error;
              Login.userData := None |}).

(** *** Calls on a manager *)

(** The public methods, [setOAuthToken] apart. *)
Inductive Call :=
| SaveTokenCache
| GetToken (forceRefresh : bool)
| GetCurrentAccount
| AcquireTokenByDeviceCode (has_hack : bool)
| TestLogin (graph : string → Login.GraphAnswer)
| Logout
| HasWorkAccountPermissions
| ExpandToWorkAccountScopes (has_hack : bool)
| ListAccounts
| SelectAccount (accountId : string)
| GetTokenForAccount (accountId : string)
| RemoveAccount (accountId : string)
| GetSelectedAccountId.

(** The state a call leaves, whether it returns or throws. *)
Definition perform (st : State P) (c : Call) : State P :=
  match c with
  | SaveTokenCache => snd (saveTokenCache st)
  | GetToken forceRefresh => snd (getToken forceRefresh st)
  | GetCurrentAccount => snd (getCurrentAccount st)
  | AcquireTokenByDeviceCode has_hack =>
      snd (acquireTokenByDeviceCode has_hack st)
  | TestLogin graph => snd (testLogin graph st)
  | Logout => snd (logout st)
  | HasWorkAccountPermissions => snd (hasWorkAccountPermissions st)
  | ExpandToWorkAccountScopes has_hack =>
      snd (expandToWorkAccountScopes endpoints has_hack st)
  | ListAccounts => snd (listAccounts st)
  | SelectAccount accountId => snd (selectAccount accountId st)
  | GetTokenForAccount accountId => snd (getTokenForAccount accountId st)
  | RemoveAccount accountId => snd (removeAccount accountId st)
  | GetSelectedAccountId => snd (getSelectedAccountId st)
  end.

End Queries.

(** ** Further vocabulary *)

(** The scopes the collecting loop gathers: those listed by an entry that
    passes the filter. *)
Definition collected (endpoints : list EndpointConfig)
    (includeWorkAccountScopes : bool) (scope : string) : Prop :=
  Exists (λ e, (elevated e && negb includeWorkAccountScopes = false)
               ∧ scope ∈ scopes_of e)
    endpoints.

(** [scope] is subsumed by a key of the hierarchy. *)
Definition lower_scope (scope : string) : Prop :=
  Exists (λ entry, scope ∈ entry.2) SCOPE_HIERARCHY.

(** [scope] is a key of the hierarchy whose lower scopes all satisfy [Q]. *)
Definition key_over (Q : string → Prop) (scope : string) : Prop :=
  Exists (λ entry, entry.1 = scope ∧ Forall Q entry.2) SCOPE_HIERARCHY.

(** A scope set grants [scope]: it holds it, or a key that subsumes it. *)
Definition grants (granted : list string) (scope : string) : Prop :=
  scope ∈ granted
  ∨ Exists (λ entry, scope ∈ entry.2 ∧ entry.1 ∈ granted) SCOPE_HIERARCHY.

(** A hierarchy whose lower scopes are all distinct, one per key, and in
    which no key is a lower scope. *)
Definition tidy (hierarchy : list (string * list string)) : Prop :=
  NoDup (concat (snd <$> hierarchy))
  ∧ Forall (λ entry, length entry.2 = 1) hierarchy
  ∧ Forall (λ entry, entry.1 ∉ concat (snd <$> hierarchy)) hierarchy.

(** What the callback of [acquireTokenByDeviceCode] adds to the trace for
    one message of the client. *)
Definition login_prompt (has_hack : bool) (msg : string) : list Event :=
  let text := newline +:+ msg +:+ newline in
  [if has_hack then ProgressCallback (text +:+ after_login_hint)
   else ConsoleLog text;
   Log Info "Device code login initiated"].

(** The keychain accounts some events ask to delete, in order. *)
Definition keychain_deletes (events : list Event) : list string :=
  omap (λ e, match e with KeytarDeletePassword _ key => Some key | _ => None end)
    events.

(** An action leaves the observation [f] of the state as it was, whether
    it returns or throws. *)
Definition preserves {P A X} (f : State P → X) (a : Action P A) : Prop :=
  ∀ st, f (snd (a st)) = f st.

(** The calls that ask for something and are not meant to change the
    selection, the working scopes or what is persisted. *)
Definition is_query (c : Call) : bool :=
  match c with
  | GetToken _ | GetCurrentAccount | TestLogin _ | HasWorkAccountPermissions
  | ListAccounts | GetTokenForAccount _ | GetSelectedAccountId => true
  | _ => false
  end.

(** The queries that do not go through [getToken]. *)
Definition leaves_token (c : Call) : bool :=
  match c with
  | GetCurrentAccount | HasWorkAccountPermissions | ListAccounts
  | GetTokenForAccount _ | GetSelectedAccountId => true
  | _ => false
  end.


(** What a query must not change: the working scopes, the selection and
    what is persisted. *)
Definition durable {P} (st : State P)
    : list string * option string * gmap (string * string) string
      * list (option Exn) * gmap string string :=
  (scopes (this st), selectedAccountId (this st), keychain (world st),
   keychain_faults (world st), files (world st)).

(** The cached token and its expiry. *)
Definition token_record {P} (st : State P) : option string * option Z :=
  (accessToken (this st), tokenExpiry (this st)).


(** ** Further sample data *)

Module Scenario.

(** The manager of [Sample.started] after bob was selected. *)
Definition bob_selected : State Scripted.Client :=
  snd (selectAccount "id-bob" Sample.started).

(** A manager whose selection names an account the client does not
    list. *)
Definition carol_selected : State Scripted.Client :=
  {| this := with_selectedAccountId (Some "id-carol") (this Sample.started);
     world := Sample.quiet_world |}.

(** The manager of [Sample.started] after its first [getToken], which
    used up the one answer the client had. *)
Definition alice_cached : State Scripted.Client :=
  snd (getToken false Sample.started).

(** A Graph endpoint that knows alice's token only. *)
Definition graph (token : string) : Login.GraphAnswer :=
  if bool_decide (token = "token-alice") then
    Login.Responds true 200
      (inr {| Login.displayName := "Alice";
              Login.userPrincipalName := "alice@contoso.com" |})
      (inr EmptyString)
  else Login.Responds false 401 (inl (Error "Unexpected token"))
         (inr "InvalidAuthenticationToken").


End Scenario.

(** * Properties of the scope resolver *)

Section ScopeResolver.

Implicit Types (s : Js.StringSet) (x y : string) (ls : list string).
Implicit Types (table : list (string * list string)).

Lemma has_true s x : Js.has s x = true ↔ x ∈ s.
Proof. unfold Js.has. by rewrite bool_decide_eq_true. Qed.

Lemma elem_of_add s x y : y ∈ Js.add s x ↔ y = x ∨ y ∈ s.
Proof.
  unfold Js.add. destruct (Js.has s x) eqn:Hx.
  - apply has_true in Hx. split; [by right | by intros [->|]].
  - rewrite elem_of_app, list_elem_of_singleton. tauto.
Qed.

Lemma elem_of_delete s x y : y ∈ Js.delete s x ↔ y ∈ s ∧ y ≠ x.
Proof. unfold Js.delete. rewrite list_elem_of_filter. tauto. Qed.

Lemma elem_of_add_all ls s y :
  y ∈ fold_left Js.add ls s ↔ y ∈ ls ∨ y ∈ s.
Proof.
  revert s. induction ls as [|l ls IH]; intros s; simpl.
  - rewrite elem_of_nil. tauto.
  - rewrite IH, elem_of_add, elem_of_cons. tauto.
Qed.

Lemma elem_of_delete_all ls s y :
  y ∈ fold_left Js.delete ls s ↔ y ∈ s ∧ y ∉ ls.
Proof.
  revert s. induction ls as [|l ls IH]; intros s; simpl.
  - rewrite elem_of_nil. tauto.
  - rewrite IH, elem_of_delete, not_elem_of_cons. tauto.
Qed.

Lemma all_present s ls :
  forallb (Js.has s) ls = true ↔ ∀ l, l ∈ ls → l ∈ s.
Proof.
  rewrite forallb_forall. setoid_rewrite has_true.
  by setoid_rewrite list_elem_of_In.
Qed.

(** Membership after one step of the collapsing loop. *)
Lemma elem_of_collapse s x ls y :
  y ∈ collapse s (x, ls) ↔
    if forallb (Js.has s) ls then y = x ∨ (y ∈ s ∧ y ∉ ls) else y ∈ s.
Proof.
  unfold collapse. destruct (forallb _ _); [|done].
  by rewrite elem_of_add, elem_of_delete_all.
Qed.

(** Membership after the collecting loop. *)
Lemma elem_of_collect include endpoints s y :
  y ∈ fold_left (collect include) endpoints s ↔
    y ∈ s ∨ Exists (λ e, (elevated e && negb include = false) ∧ y ∈ scopes_of e)
              endpoints.
Proof.
  revert s. induction endpoints as [|e es IH]; intros s; simpl.
  - rewrite Exists_nil. tauto.
  - rewrite IH, Exists_cons. unfold collect, scopes_of, elevated.
    destruct (Js.truthy_flag _ && negb include).
    + intuition discriminate.
    + destruct (Endpoint.scopes e) as [scs|]; simpl.
      * rewrite elem_of_add_all. tauto.
      * rewrite elem_of_nil. tauto.
Qed.

Lemma subseteq_cons_head {A} (a : A) (l k : list A) : a :: l ⊆ k → a ∈ k.
Proof. intros Hsub. apply Hsub, list_elem_of_here. Qed.

Lemma subseteq_cons_tail {A} (a : A) (l k : list A) : a :: l ⊆ k → l ⊆ k.
Proof. intros Hsub b Hb. by apply Hsub, list_elem_of_further. Qed.

(** A scope that is absent and is no key stays absent. *)
Lemma collapse_keeps_absent table s y :
  y ∉ s → Forall (λ entry, entry.1 ≠ y) table →
  y ∉ fold_left collapse table s.
Proof.
  revert s. induction table as [|[x ls] table IH]; intros s Hy Hkeys; [done|].
  apply Forall_cons in Hkeys as [Hx Hkeys]. cbn [fold_left fst] in *.
  apply IH; [|done]. rewrite elem_of_collapse.
  destruct (forallb _ _); [|done]. intros [->|[? _]]; done.
Qed.

(** After its step, an entry has a lower scope that is absent. *)
Lemma collapse_leaves_gap s x ls :
  ls ≠ [] → x ∉ ls → ∃ l, l ∈ ls ∧ l ∉ collapse s (x, ls).
Proof.
  intros Hne Hx. destruct (forallb (Js.has s) ls) eqn:Hall.
  - destruct ls as [|l ls]; [done|]. exists l.
    split; [apply list_elem_of_here|].
    rewrite elem_of_collapse, Hall. intros [->|[_ Hl]].
    + apply Hx, list_elem_of_here.
    + apply Hl, list_elem_of_here.
  - assert (¬ ∀ l, l ∈ ls → l ∈ s) as Hnot.
    { rewrite <- all_present. by rewrite Hall. }
    assert (Exists (λ l, l ∉ s) ls) as Hex.
    { apply not_Forall_Exists; [solve_decision|].
      rewrite Forall_forall. done. }
    apply Exists_exists in Hex as (l & Hl & Hls).
    exists l. split; [done|]. by rewrite elem_of_collapse, Hall.
Qed.

(** In a well-formed hierarchy, the loop leaves every entry with a lower
    scope that is absent from the result. *)
Lemma collapse_all_gaps table suffix s :
  Forall (λ entry,
            entry.2 ≠ [] ∧ Forall (λ other, other.1 ∉ entry.2) table)
    suffix →
  suffix ⊆ table →
  Forall (λ entry, ∃ l, l ∈ entry.2 ∧ l ∉ fold_left collapse suffix s)
    suffix.
Proof.
  revert s. induction suffix as [|[x ls] suffix IH]; intros s Hwf Hsub.
  { constructor. }
  apply Forall_cons in Hwf as [[Hne Hkeys] Hwf]. cbn [fst snd] in *.
  pose proof (subseteq_cons_tail _ _ _ Hsub) as Hsub'.
  pose proof (subseteq_cons_head _ _ _ Hsub) as Hin.
  constructor; [|by apply IH]. cbn [fold_left fst snd].
  destruct (collapse_leaves_gap s x ls) as (l & Hl & Hgap); [done|..].
  { rewrite Forall_forall in Hkeys. by apply (Hkeys (x, ls)). }
  exists l. split; [done|]. apply collapse_keeps_absent; [done|].
  rewrite Forall_forall. intros other Hother Heq.
  rewrite Forall_forall in Hkeys. apply (Hkeys other); [by apply Hsub'|].
  by rewrite Heq.
Qed.

(** In a well-formed hierarchy, a scope of the result was collected or is
    a key all of whose lower scopes were collected. *)
Lemma collapse_origin table s0 suffix s :
  well_formed table →
  suffix ⊆ table →
  let from_start y :=
    y ∈ s0 ∨ Exists (λ entry, entry.1 = y ∧ Forall (λ l, l ∈ s0) entry.2) table in
  (∀ y, y ∈ s → from_start y) →
  ∀ y, y ∈ fold_left collapse suffix s → from_start y.
Proof.
  intros Hwf. revert s.
  induction suffix as [|[x ls] suffix IH]; intros s Hsub Q Hs y; [by apply Hs|].
  pose proof (subseteq_cons_head _ _ _ Hsub) as Hin.
  cbn [fold_left]. apply IH; [by eapply subseteq_cons_tail|]. clear y. intros y.
  rewrite elem_of_collapse. destruct (forallb _ _) eqn:Hall; [|by apply Hs].
  intros [->|[Hy _]]; [|by apply Hs].
  right. apply Exists_exists. exists (x, ls). split; [done|].
  split; [done|]. simpl. rewrite Forall_forall. intros l Hl.
  apply all_present with (l := l) in Hall; [|done].
  destruct (Hs l Hall) as [|Hkey]; [done|]. exfalso.
  apply Exists_exists in Hkey as (other & Hother & Heq & _).
  unfold well_formed in Hwf. rewrite Forall_forall in Hwf.
  destruct (Hwf (x, ls)) as [_ Hkeys]; [done|].
  rewrite Forall_forall in Hkeys. apply (Hkeys other Hother).
  simpl. by rewrite Heq.
Qed.

Lemma SCOPE_HIERARCHY_well_formed : well_formed SCOPE_HIERARCHY.
Proof. unfold well_formed. apply (bool_decide_unpack _). by vm_compute. Qed.

End ScopeResolver.

(** ** The resolved scope set *)

(** C3. For every catalog and either value of the flag, the scope set
    [buildScopesFromEndpoints] returns never holds a key of
    [SCOPE_HIERARCHY] together with all the lower scopes that key is
    declared to subsume. *)
Theorem buildScopes_never_keeps_subsumed
    (endpoints : list EndpointConfig) (includeWorkAccountScopes : bool)
    (higherScope : string) (lowerScopes : list string) :
  (higherScope, lowerScopes) ∈ SCOPE_HIERARCHY →
  ¬ (higherScope ∈ buildScopesFromEndpoints endpoints includeWorkAccountScopes
     ∧ ∀ scope, scope ∈ lowerScopes →
         scope ∈ buildScopesFromEndpoints endpoints includeWorkAccountScopes).
Proof.
  intros Hentry [_ Hall].
  pose proof (collapse_all_gaps SCOPE_HIERARCHY SCOPE_HIERARCHY
                (fold_left (collect includeWorkAccountScopes) endpoints [])
                SCOPE_HIERARCHY_well_formed (reflexivity _)) as Hgaps.
  rewrite Forall_forall in Hgaps.
  destruct (Hgaps _ Hentry) as (l & Hl & Habsent).
  apply Habsent, Hall, Hl.
Qed.

Lemma buildScopes_never_keeps_subsumed_witness :
  ("Mail.ReadWrite", ["Mail.Read"]) ∈ SCOPE_HIERARCHY
  ∧ ¬ ("Mail.ReadWrite" ∈ buildScopesFromEndpoints endpointsData false
       ∧ ∀ scope, scope ∈ ["Mail.Read"] →
           scope ∈ buildScopesFromEndpoints endpointsData false).
Proof.
  assert (("Mail.ReadWrite", ["Mail.Read"]) ∈ SCOPE_HIERARCHY) as Hentry
    by apply list_elem_of_here.
  split; [exact Hentry|].
  exact (buildScopes_never_keeps_subsumed endpointsData false _ _ Hentry).
Defined.

(** The scenario of the specification: a catalog listing [Mail.Read] and
    [Mail.ReadWrite] resolves to [Mail.ReadWrite] alone. *)
Example buildScopes_mail_scenario :
  buildScopesFromEndpoints
    [endpoint "/me/messages" "get" "list-mail-messages"
       (Some ["Mail.Read"; "Mail.ReadWrite"]) None] false
  = ["Mail.ReadWrite"].
Proof. reflexivity. Qed.

(** The scopes the shipped catalog resolves to without the work-account
    tier. *)
Example buildScopes_shipped_catalog :
  buildScopesFromEndpoints endpointsData false
  = ["Mail.Send"; "Mail.ReadWrite"; "Calendars.ReadWrite"; "Files.ReadWrite";
     "Notes.Read"; "Notes.Create"; "Tasks.ReadWrite"; "Contacts.ReadWrite";
     "User.Read"].
Proof. by vm_compute. Qed.

(** C4 as stated fails: in [Sample.mail_catalog] the scope [Mail.ReadWrite] is
    listed by the flagged entry only, and [buildScopesFromEndpoints] without
    the work-account tier returns it all the same, because collapsing
    replaces [Mail.Read] by it. *)
Lemma buildScopes_elevated_only_scope_kept :
  on_elevated_entry Sample.mail_catalog "Mail.ReadWrite"
  ∧ only_on_elevated Sample.mail_catalog "Mail.ReadWrite"
  ∧ "Mail.ReadWrite" ∈ buildScopesFromEndpoints Sample.mail_catalog false.
Proof.
  split; [|split].
  - apply (bool_decide_unpack _). by vm_compute.
  - apply (bool_decide_unpack _). by vm_compute.
  - apply (bool_decide_unpack _). by vm_compute.
Qed.

(** C4, amended. For any catalog, a scope that only flagged entries list is
    excluded from [buildScopesFromEndpoints] without the work-account tier,
    unless it is a key of [SCOPE_HIERARCHY] whose lower scopes are all
    listed by unflagged entries. *)
Theorem buildScopes_excludes_elevated_only
    (endpoints : list EndpointConfig) (scope : string) :
  only_on_elevated endpoints scope →
  ¬ added_by_collapsing endpoints scope →
  scope ∉ buildScopesFromEndpoints endpoints false.
Proof.
  intros Honly Hnot Hin.
  assert (∀ y, y ∈ fold_left (collect false) endpoints [] →
               on_baseline_entry endpoints y) as Hcollected.
  { intros y Hy. apply elem_of_collect in Hy as [Hy|Hy]; [by apply elem_of_nil in Hy|].
    unfold on_baseline_entry. eapply Exists_impl; [exact Hy|].
    intros e [Hflag He]. split; [|done].
    by rewrite andb_true_r in Hflag. }
  apply (collapse_origin SCOPE_HIERARCHY
           (fold_left (collect false) endpoints []) SCOPE_HIERARCHY
           (fold_left (collect false) endpoints [])
           SCOPE_HIERARCHY_well_formed (reflexivity _)) in Hin; [|by left].
  destruct Hin as [Hin|Hin].
  - apply Hcollected, Exists_exists in Hin as (e & He & Hflag & Hscope).
    unfold only_on_elevated in Honly. rewrite Forall_forall in Honly.
    specialize (Honly e He Hscope). congruence.
  - apply Hnot. unfold added_by_collapsing. eapply Exists_impl; [exact Hin|].
    intros entry [Hkey Hlower]. split; [done|].
    eapply Forall_impl; [exact Hlower|]. exact Hcollected.
Qed.

Lemma buildScopes_excludes_elevated_only_witness :
  only_on_elevated endpointsData "Chat.Read"
  ∧ ¬ added_by_collapsing endpointsData "Chat.Read"
  ∧ "Chat.Read" ∉ buildScopesFromEndpoints endpointsData false.
Proof.
  assert (only_on_elevated endpointsData "Chat.Read") as Honly.
  { apply (bool_decide_unpack _). by vm_compute. }
  assert (¬ added_by_collapsing endpointsData "Chat.Read") as Hnot.
  { apply (bool_decide_unpack _). by vm_compute. }
  split; [exact Honly|]. split; [exact Hnot|].
  exact (buildScopes_excludes_elevated_only endpointsData _ Honly Hnot).
Defined.

(** * The scope set, exactly *)

Section ScopeSetExactly.

Implicit Types (s : Js.StringSet) (x y : string) (ls : list string).
Implicit Types (table : list (string * list string)).

Lemma SCOPE_HIERARCHY_tidy : tidy SCOPE_HIERARCHY.
Proof. unfold tidy. apply (bool_decide_unpack _). by vm_compute. Qed.

Lemma tidy_cons x ls table :
  tidy ((x, ls) :: table) →
  ∃ l, ls = [l] ∧ l ≠ x ∧ (l ∉ concat (snd <$> table))
       ∧ (x ∉ concat (snd <$> table))
       ∧ Forall (λ entry, entry.1 ≠ l) table
       ∧ tidy table.
Proof.
  intros (Hdup & Hone & Hkeys).
  apply Forall_cons in Hone as [Hone Hones].
  apply Forall_cons in Hkeys as [Hkey Hkeys].
  cbn [fst snd fmap list_fmap concat] in *.
  destruct ls as [|l [|l' ls]]; try done. exists l. cbn [app] in *.
  apply NoDup_cons in Hdup as [Hl Hdup].
  apply not_elem_of_cons in Hkey as [Hxl Hkey].
  repeat split; try done.
  - eapply Forall_impl; [exact Hkeys|]. cbn. intros entry Hentry.
    by apply not_elem_of_cons in Hentry as [? _].
  - eapply Forall_impl; [exact Hkeys|]. cbn. intros entry Hentry.
    by apply not_elem_of_cons in Hentry as [_ ?].
Qed.

Lemma elem_of_lows table y :
  y ∈ concat (snd <$> table) ↔ Exists (λ entry, y ∈ entry.2) table.
Proof.
  induction table as [|[x ls] table IH]; cbn [fmap list_fmap concat snd].
  - rewrite Exists_nil, elem_of_nil. tauto.
  - rewrite elem_of_app, Exists_cons, IH. tauto.
Qed.

(** One step of the collapsing loop on an entry with one lower scope. *)
Lemma elem_of_collapse_one s x l y :
  y ∈ collapse s (x, [l]) ↔
    (l ∈ s ∧ (y = x ∨ (y ∈ s ∧ y ≠ l))) ∨ ((l ∉ s) ∧ y ∈ s).
Proof.
  rewrite elem_of_collapse. cbn [forallb]. rewrite andb_true_r.
  destruct (Js.has s l) eqn:Hl.
  - apply has_true in Hl. rewrite not_elem_of_cons, elem_of_nil. tauto.
  - assert (l ∉ s) by (rewrite <- has_true; congruence). tauto.
Qed.

(** In a tidy hierarchy the collapsing loop keeps what is no lower scope
    and adds the keys whose lower scopes it was given. *)
Lemma fold_collapse_exact table :
  tidy table →
  ∀ s y,
    y ∈ fold_left collapse table s ↔
      (y ∈ s ∧ y ∉ concat (snd <$> table))
      ∨ Exists (λ entry, entry.1 = y ∧ Forall (λ l, l ∈ s) entry.2) table.
Proof.
  induction table as [|[x ls] table IH]; intros Htidy s y.
  - cbn. rewrite Exists_nil, elem_of_nil. tauto.
  - destruct (tidy_cons _ _ _ Htidy)
      as (l & -> & Hlx & Hl & Hx & Hkeys & Htidy').
    cbn [fold_left fmap list_fmap concat snd app].
    rewrite (IH Htidy'), Exists_cons, not_elem_of_cons. cbn [fst snd].
    rewrite Forall_singleton, elem_of_collapse_one.
    assert (Exists (λ entry, entry.1 = y
                             ∧ Forall (λ l0, l0 ∈ collapse s (x, [l])) entry.2)
              table
            ↔ Exists (λ entry, entry.1 = y ∧ Forall (λ l0, l0 ∈ s) entry.2)
                table) as ->.
    { destruct Htidy' as (_ & _ & Hkeys').
      rewrite !Exists_exists. apply exist_proper. intros entry.
      split; intros (Hentry & Hy & Hall); (split; [done|]); (split; [done|]).
      - rewrite Forall_forall in Hall |- *. intros l0 Hl0.
        specialize (Hall l0 Hl0). apply elem_of_collapse_one in Hall.
        assert (l0 ∈ concat (snd <$> table)) as Hlow.
        { apply elem_of_lows, Exists_exists. by exists entry. }
        destruct Hall as [(_ & [->|[? _]])|[_ ?]]; done.
      - rewrite Forall_forall in Hall |- *. intros l0 Hl0.
        specialize (Hall l0 Hl0). apply elem_of_collapse_one.
        assert (l0 ∈ concat (snd <$> table)) as Hlow.
        { apply elem_of_lows, Exists_exists. by exists entry. }
        destruct (decide (l ∈ s)); [left|right]; split; try done.
        right. split; [done|]. by intros ->. }
    destruct (decide (l ∈ s)) as [Hin|Hout].
    + split.
      * intros [[[(_ & [->|[? ?]])|[? _]] ?]|?]; try done; eauto.
      * intros [(? & ? & ?)|[[<- _]|?]]; eauto 10.
    + split.
      * intros [[[(? & _)|[_ ?]] ?]|?]; try done; eauto.
        left. repeat split; try done. by intros ->.
      * intros [(? & ? & ?)|[[_ ?]|?]]; try done; eauto 10.
Qed.

(** Membership in the resolved scope set. *)
Lemma elem_of_buildScopes (endpoints : list EndpointConfig)
    (includeWorkAccountScopes : bool) x :
  x ∈ buildScopesFromEndpoints endpoints includeWorkAccountScopes ↔
    (collected endpoints includeWorkAccountScopes x ∧ ¬ lower_scope x)
    ∨ key_over (collected endpoints includeWorkAccountScopes) x.
Proof.
  unfold buildScopesFromEndpoints, buildScopesWith.
  rewrite (fold_collapse_exact _ SCOPE_HIERARCHY_tidy), elem_of_lows.
  unfold collected, lower_scope, key_over.
  assert (∀ y, y ∈ fold_left (collect includeWorkAccountScopes) endpoints []
               ↔ Exists (λ e, (elevated e && negb includeWorkAccountScopes
                               = false) ∧ y ∈ scopes_of e) endpoints)
    as Hcollect.
  { intros y. rewrite elem_of_collect, elem_of_nil. tauto. }
  rewrite Hcollect.
  assert (Exists (λ entry, entry.1 = x
            ∧ Forall (λ l, l ∈ fold_left (collect includeWorkAccountScopes)
                                 endpoints []) entry.2) SCOPE_HIERARCHY
          ↔ Exists (λ entry, entry.1 = x
              ∧ Forall (λ l, Exists (λ e, (elevated e
                                           && negb includeWorkAccountScopes
                                           = false) ∧ l ∈ scopes_of e)
                               endpoints) entry.2) SCOPE_HIERARCHY) as ->.
  { rewrite !Exists_exists. apply exist_proper. intros entry.
    rewrite !Forall_forall. by setoid_rewrite Hcollect. }
  done.
Qed.

End ScopeSetExactly.

(** ** What the resolved scope set holds *)

(** X1. A scope is returned by [buildScopesFromEndpoints] exactly when an
    entry that passes the filter lists it and no key of [SCOPE_HIERARCHY]
    subsumes it, or when it is a key of [SCOPE_HIERARCHY] whose lower scopes
    are all listed by entries that pass the filter. *)
Theorem buildScopes_exact (endpoints : list EndpointConfig)
    (includeWorkAccountScopes : bool) (scope : string) :
  scope ∈ buildScopesFromEndpoints endpoints includeWorkAccountScopes ↔
    (collected endpoints includeWorkAccountScopes scope ∧ ¬ lower_scope scope)
    ∨ key_over (collected endpoints includeWorkAccountScopes) scope.
Proof. apply elem_of_buildScopes. Qed.

Lemma NoDup_add (s : Js.StringSet) (x : string) : NoDup s → NoDup (Js.add s x).
Proof.
  intros Hs. unfold Js.add. destruct (Js.has s x) eqn:Hx; [done|].
  apply NoDup_app. split; [done|]. split; [|apply NoDup_singleton].
  intros y Hy Hyx. apply list_elem_of_singleton in Hyx as ->.
  apply has_true in Hy. congruence.
Qed.

Lemma NoDup_add_all (ls : list string) (s : Js.StringSet) :
  NoDup s → NoDup (fold_left Js.add ls s).
Proof.
  revert s. induction ls as [|l ls IH]; intros s Hs; [done|].
  by apply IH, NoDup_add.
Qed.

Lemma NoDup_delete_all (ls : list string) (s : Js.StringSet) :
  NoDup s → NoDup (fold_left Js.delete ls s).
Proof.
  revert s. induction ls as [|l ls IH]; intros s Hs; [done|].
  by apply IH, NoDup_filter.
Qed.

(** X2. The array [buildScopesFromEndpoints] returns lists no scope
    twice, whatever the catalog repeats. *)
Theorem buildScopes_NoDup (endpoints : list EndpointConfig)
    (includeWorkAccountScopes : bool) :
  NoDup (buildScopesFromEndpoints endpoints includeWorkAccountScopes).
Proof.
  unfold buildScopesFromEndpoints, buildScopesWith.
  assert (∀ es s, NoDup s →
            NoDup (fold_left (collect includeWorkAccountScopes) es s))
    as Hcollect.
  { induction es as [|e es IH]; intros s Hs; [done|].
    apply IH. unfold collect. destruct (_ && _); [done|].
    destruct (Endpoint.scopes e); [by apply NoDup_add_all|done]. }
  generalize (Hcollect endpoints [] (NoDup_nil_2 (A := string))).
  generalize (fold_left (collect includeWorkAccountScopes) endpoints []).
  induction SCOPE_HIERARCHY as [|[x ls] table IH]; intros s Hs; [done|].
  apply IH. unfold collapse. destruct (forallb _ _); [|done].
  by apply NoDup_add, NoDup_delete_all.
Qed.

Lemma collected_mono (endpoints : list EndpointConfig) (scope : string) :
  collected endpoints false scope → collected endpoints true scope.
Proof.
  unfold collected. intros Hcollected.
  eapply Exists_impl; [exact Hcollected|]. intros e [_ Hscope].
  split; [|done]. by rewrite andb_false_r.
Qed.

(** X3. Including the work-account tier never drops a scope: every scope
    of [buildScopesFromEndpoints] without the tier is a scope of
    [buildAllScopes]. *)
Theorem buildAllScopes_includes_default (endpoints : list EndpointConfig)
    (scope : string) :
  scope ∈ buildScopesFromEndpoints endpoints false →
  scope ∈ buildAllScopes endpoints.
Proof.
  unfold buildAllScopes. rewrite !elem_of_buildScopes.
  intros [[Hcollected Hlow]|Hkey].
  - left. split; [by apply collected_mono|done].
  - right. unfold key_over in *. eapply Exists_impl; [exact Hkey|].
    intros entry [Hentry Hall]. split; [done|].
    eapply Forall_impl; [exact Hall|]. apply collected_mono.
Qed.

Lemma buildAllScopes_includes_default_witness :
  "Mail.ReadWrite" ∈ buildScopesFromEndpoints endpointsData false
  ∧ "Mail.ReadWrite" ∈ buildAllScopes endpointsData.
Proof.
  assert ("Mail.ReadWrite" ∈ buildScopesFromEndpoints endpointsData false)
    as Hdefault by (apply (bool_decide_unpack _); by vm_compute).
  split; [exact Hdefault|].
  exact (buildAllScopes_includes_default endpointsData _ Hdefault).
Defined.

Lemma find_some {A} (p : A → bool) (xs : list A) (x : A) :
  Js.find p xs = Some x → x ∈ xs ∧ p x = true.
Proof.
  induction xs as [|y xs IH]; cbn [Js.find]; [done|].
  destruct (p y) eqn:Hy.
  - intros [= ->]. split; [apply list_elem_of_here|done].
  - intros Hfind. destruct (IH Hfind) as [Hx Hpx].
    split; [by apply list_elem_of_further|done].
Qed.

(** X4. For a tool the catalog knows, the scope set built with the flag
    [requiresWorkAccountScope] gives for that tool grants every scope the
    tool's entry lists: the set holds the scope itself or the key of
    [SCOPE_HIERARCHY] that subsumes it. *)
Theorem tool_scopes_granted (endpoints : list EndpointConfig)
    (tool : string) (e : EndpointConfig) (scope : string) :
  Js.find (λ e, bool_decide (Endpoint.toolName e = tool)) endpoints = Some e →
  scope ∈ scopes_of e →
  grants
    (buildScopesFromEndpoints endpoints (requiresWorkAccountScope endpoints tool))
    scope.
Proof.
  intros Hfind Hscope. unfold requiresWorkAccountScope. rewrite Hfind.
  apply find_some in Hfind as [He _].
  set (include := bool_decide (Endpoint.requiresWorkAccount e = Some true)).
  assert (collected endpoints include scope) as Hcollected.
  { unfold collected. apply Exists_exists. exists e. split; [done|].
    split; [|done]. unfold elevated, include.
    by destruct (Endpoint.requiresWorkAccount e) as [[]|]. }
  unfold grants. destruct (decide (lower_scope scope)) as [Hlow|Hlow].
  - right. unfold lower_scope in Hlow.
    apply Exists_exists in Hlow as ([x ls] & Hentry & Hin).
    apply Exists_exists. exists (x, ls). split; [done|]. split; [done|].
    apply elem_of_buildScopes. right. unfold key_over.
    apply Exists_exists. exists (x, ls). split; [done|]. split; [done|].
    destruct SCOPE_HIERARCHY_tidy as (_ & Hone & _).
    rewrite Forall_forall in Hone. specialize (Hone _ Hentry).
    cbn [fst snd] in *. destruct ls as [|l [|l' ls]]; try done.
    apply list_elem_of_singleton in Hin as ->. by apply Forall_singleton.
  - left. apply elem_of_buildScopes. by left.
Qed.

Lemma tool_scopes_granted_witness :
  Js.find (λ e, bool_decide (Endpoint.toolName e = "list-mail-messages"))
    endpointsData
  = Some (endpoint "/me/messages" "get" "list-mail-messages"
            (Some ["Mail.Read"]) None)
  ∧ "Mail.Read"
    ∈ scopes_of (endpoint "/me/messages" "get" "list-mail-messages"
                   (Some ["Mail.Read"]) None)
  ∧ grants
      (buildScopesFromEndpoints endpointsData
         (requiresWorkAccountScope endpointsData "list-mail-messages"))
      "Mail.Read".
Proof.
  assert (Js.find (λ e, bool_decide (Endpoint.toolName e = "list-mail-messages"))
            endpointsData
          = Some (endpoint "/me/messages" "get" "list-mail-messages"
                    (Some ["Mail.Read"]) None)) as Hfind
    by (vm_compute; reflexivity).
  assert ("Mail.Read"
          ∈ scopes_of (endpoint "/me/messages" "get" "list-mail-messages"
                         (Some ["Mail.Read"]) None)) as Hscope
    by apply list_elem_of_here.
  split; [exact Hfind|]. split; [exact Hscope|].
  exact (tool_scopes_granted endpointsData _ _ _ Hfind Hscope).
Defined.

(** The default scope set holds [Mail.ReadWrite] in place of the [Mail.Read]
    that the mail-reading tools list. *)
Example mail_read_granted_through_key :
  ("Mail.Read" ∉ buildScopesFromEndpoints endpointsData false)
  ∧ "Mail.ReadWrite" ∈ buildScopesFromEndpoints endpointsData false.
Proof. split; apply (bool_decide_unpack _); by vm_compute. Qed.

(** * Properties of the manager *)

Section ManagerProperties.

Context {P : Type} `{!Msal.Client P}.

Implicit Types (st : State P) (m : AuthManager P) (w : World).

(** The identifier [fs] is not in scope: evaluating it throws. *)
Lemma fs_not_in_scope :
  identifier (P := P) "fs" = throw (ReferenceError "fs is not defined").
Proof. reflexivity. Qed.

Lemma drop_own_length {A} (l k : list A) : drop (length l) (l ++ k) = k.
Proof. by rewrite drop_app_length. Qed.

Lemma drop_whole {A} (l : list A) : drop (length l) l = [].
Proof. by rewrite drop_all. Qed.

Lemma traced_nil st : traced [] st = st.
Proof. destruct st as [m []]. unfold traced. cbn. by rewrite app_nil_r. Qed.

Lemma events_since_traced st st' (events : list Event) :
  trace (world st') = (trace (world st) ++ events)%list →
  events_since st st' = events.
Proof. unfold events_since. intros ->. apply drop_own_length. Qed.

(** [getCurrentAccount] never throws, leaves the manager and the world
    alone, and adds at most a warning to the log. *)
Lemma getCurrentAccount_frame st :
  ∃ r events,
    getCurrentAccount st = (Normal r, traced events st)
    ∧ Forall (λ e, ∃ text, e = Log Warn text) events
    ∧ (r = None ↔ Msal.getAllAccounts (msalApp (this st)) = []).
Proof.
  unfold getCurrentAccount, getAllAccounts, logger_warn, emit, update_world,
    bind, get_this, ret.
  cbv beta zeta. cbn [this world fst snd].
  destruct (Msal.getAllAccounts (msalApp (this st))) as [|a accounts] eqn:Hacc.
  - exists None, []. rewrite traced_nil. by repeat constructor.
  - cbn [length Nat.eqb head].
    destruct (Js.truthy_string (selectedAccountId (this st))).
    + destruct (Js.find _ _) as [found|].
      * exists (Some found), []. rewrite traced_nil. by repeat constructor.
      * eexists (Some a), [_]. split; [reflexivity|].
        split; [by repeat econstructor|by split].
    + exists (Some a), []. rewrite traced_nil. by repeat constructor.
Qed.

Ltac run :=
  unfold listAccounts, getAllAccounts, cache_serialize,
    logger_info, logger_warn, logger_error, Date_now, emit, traced;
  unfold bind, ret, throw, try_catch, get_this, get_world, update_this,
    update_world;
  unfold with_scopes, with_msalApp, with_accessToken, with_tokenExpiry,
    with_oauthToken, with_isOAuthMode, with_selectedAccountId,
    with_keychain, with_keychain_faults, with_files, with_trace;
  cbv beta zeta;
  cbn [this world fst snd scopes msalApp accessToken tokenExpiry oauthToken
       isOAuthMode selectedAccountId keychain keychain_faults files clock
       trace].

Ltac since :=
  erewrite events_since_traced;
  [|unfold with_trace; cbn [trace world]; rewrite <- ?app_assoc;
    reflexivity].

Lemma find_none {A} (p : A → bool) (xs : list A) :
  Js.find p xs = None ↔ ∀ x, x ∈ xs → p x = false.
Proof.
  induction xs as [|x xs IH]; cbn [Js.find].
  - split; [|done]. intros _ x Hx. by apply elem_of_nil in Hx.
  - destruct (p x) eqn:Hx.
    + split; [done|]. intros Hall.
      specialize (Hall x (list_elem_of_here _ _)). congruence.
    + rewrite IH. split.
      * intros Hall y Hy. apply elem_of_cons in Hy as [->|Hy]; auto.
      * intros Hall y Hy. by apply Hall, list_elem_of_further.
Qed.

Lemma find_account_none accountId (accounts : list Msal.AccountInfo) :
  (∀ acc, acc ∈ accounts → Msal.homeAccountId acc ≠ accountId) →
  find_account accountId accounts = None.
Proof.
  intros Hall. apply find_none. intros acc Hacc.
  apply bool_decide_eq_false. by apply Hall.
Qed.

(** ** Saving to the keychain *)

Lemma saveTokenCache_run st :
  saveTokenCache st
  = (Normal tt,
     {| this := this st;
        world := after_save TOKEN_CACHE_ACCOUNT
                   (Msal.serialize (msalApp (this st)))
                   "Keychain save failed, falling back to file storage: "
                   "Error saving token cache: " (world st) |}).
Proof.
  unfold saveTokenCache, keytar_setPassword, keytar_call, fs_writeFileSync,
    after_save.
  rewrite fs_not_in_scope. run.
  destruct (keychain_faults (world st)) as [|[e|] rest] eqn:Hfaults;
    run; by rewrite ?Hfaults.
Qed.

Lemma saveSelectedAccount_run st :
  saveSelectedAccount st
  = (Normal tt,
     {| this := this st;
        world := after_save SELECTED_ACCOUNT_KEY
                   (Json.stringify_accountId (selectedAccountId (this st)))
                   "Keychain save failed for selected account, falling back to file storage: "
                   "Error saving selected account: " (world st) |}).
Proof.
  unfold saveSelectedAccount, keytar_setPassword, keytar_call,
    fs_writeFileSync, after_save.
  rewrite fs_not_in_scope. run.
  destruct (keychain_faults (world st)) as [|[e|] rest] eqn:Hfaults;
    run; by rewrite ?Hfaults.
Qed.

Lemma after_save_files key data warning failure w :
  files (after_save key data warning failure w) = files w.
Proof. unfold after_save. by destruct (keychain_faults w) as [|[e|] rest]. Qed.

Lemma after_save_trace key data warning failure w :
  ∃ logs,
    trace (after_save key data warning failure w)
    = (trace w ++ KeytarSetPassword SERVICE_NAME key data :: logs)%list
    ∧ Forall (λ e, ∃ level text, e = Log level text) logs.
Proof.
  unfold after_save. destruct (keychain_faults w) as [|[e|] rest].
  - by exists [].
  - eexists [_; _]. cbn [trace]. rewrite <- !app_assoc.
    split; [reflexivity|]. by repeat econstructor.
  - by exists [].
Qed.

Lemma after_save_keychain key data warning failure w :
  keychain (after_save key data warning failure w)
  = (if accepts (keychain_faults w) 0
     then <[(SERVICE_NAME, key) := data]> (keychain w)
     else keychain w)
  ∧ keychain_faults (after_save key data warning failure w)
    = drop 1 (keychain_faults w).
Proof. unfold after_save. by destruct (keychain_faults w) as [|[e|] rest]. Qed.

Lemma accepts_drop (faults : list (option Exn)) :
  accepts (drop 1 faults) 0 = accepts faults 1.
Proof. by destruct faults. Qed.

(** C7, as the code has it. When the keychain write throws, neither save
    writes its fallback file: evaluating [fs] throws, the outer handler
    logs the failure, and the save returns normally with the files as
    they were. *)
Theorem save_fallback_not_written st (e : Exn) (rest : list (option Exn)) :
  keychain_faults (world st) = Some e :: rest →
  let '(r1, st1) := saveTokenCache st in
  let '(r2, st2) := saveSelectedAccount st in
  (r1 = Normal tt
   ∧ files (world st1) = files (world st)
   ∧ events_since st st1
     = [KeytarSetPassword SERVICE_NAME TOKEN_CACHE_ACCOUNT
          (Msal.serialize (msalApp (this st)));
        Log Warn ("Keychain save failed, falling back to file storage: "
                  +:+ message e);
        Log Err "Error saving token cache: fs is not defined"])
  ∧ (r2 = Normal tt
     ∧ files (world st2) = files (world st)
     ∧ events_since st st2
       = [KeytarSetPassword SERVICE_NAME SELECTED_ACCOUNT_KEY
            (Json.stringify_accountId (selectedAccountId (this st)));
          Log Warn ("Keychain save failed for selected account, falling back to file storage: "
                    +:+ message e);
          Log Err "Error saving selected account: fs is not defined"]).
Proof.
  intros Hfault. rewrite saveTokenCache_run, saveSelectedAccount_run.
  unfold after_save. rewrite Hfault. cbn [this world files].
  split; (split; [done|]; split; [done|]); by since.
Qed.

(** ** Logout *)

Lemma cache_removeAccount_run (a : Msal.AccountInfo) st :
  cache_removeAccount a st
  = match Msal.removeAccount (msalApp (this st)) a with
    | inl e => (Throw e, st)
    | inr p =>
        (Normal tt, {| this := with_msalApp p (this st); world := world st |})
    end.
Proof. unfold cache_removeAccount. run. by destruct (Msal.removeAccount _ _). Qed.

(** Removing accounts from the client's cache touches nothing but the
    client. *)
Lemma remove_all_frame (accounts : list Msal.AccountInfo) st :
  ∃ r p,
    for_of accounts cache_removeAccount st
    = (r, {| this := with_msalApp p (this st); world := world st |}).
Proof.
  revert st. induction accounts as [|a accounts IH]; intros st.
  - exists (Normal tt), (msalApp (this st)). by destruct st as [[] ?].
  - cbn [for_of]. unfold bind. rewrite cache_removeAccount_run.
    destruct (Msal.removeAccount (msalApp (this st)) a) as [e|p].
    + exists (Throw e), (msalApp (this st)). by destruct st as [[] ?].
    + destruct (IH {| this := with_msalApp p (this st); world := world st |})
        as (r & p' & ->).
      by exists r, p'.
Qed.

(** C8, as the code has it. [logout] never returns: once the accounts are
    removed and the fields cleared, evaluating [fs] throws, and the outer
    handler logs and rethrows. The fallback files stay as they were. *)
Theorem logout_throws st :
  let accounts := Msal.getAllAccounts (msalApp (this st)) in
  let '(result, st') := logout st in
  files (world st') = files (world st)
  ∧ match fst (for_of accounts cache_removeAccount st) with
    | Normal _ =>
        result = Throw (ReferenceError "fs is not defined")
        ∧ accessToken (this st') = None
        ∧ tokenExpiry (this st') = None
        ∧ selectedAccountId (this st') = None
    | Throw e => result = Throw e
    end.
Proof.
  unfold logout, fs_existsSync, keytar_deletePassword, keytar_call.
  rewrite !fs_not_in_scope. run.
  destruct (remove_all_frame (Msal.getAllAccounts (msalApp (this st))) st)
    as (r & p & ->).
  destruct r as [[]|e]; run; [|done].
  destruct (keychain_faults (world st)) as [|[e1|] [|[e2|] rest]]; by run.
Qed.

(** ** Unknown account ids *)

(** C9. For an account id that no listed account carries, [selectAccount]
    and [removeAccount] return [false] and change nothing but the log,
    while [getTokenForAccount] throws. *)
Theorem unknown_account_false_or_thrown st (accountId : string) :
  (∀ acc, acc ∈ Msal.getAllAccounts (msalApp (this st)) →
          Msal.homeAccountId acc ≠ accountId) →
  let reported :=
    {| this := this st;
       world := with_trace (trace (world st) ++ [Log Err (not_found accountId)])
                  (world st) |} in
  selectAccount accountId st = (Normal false, reported)
  ∧ removeAccount accountId st = (Normal false, reported)
  ∧ getTokenForAccount accountId st
    = (Throw (Error (not_found accountId)), st).
Proof.
  intros Hunknown reported. apply find_account_none in Hunknown.
  unfold selectAccount, removeAccount, getTokenForAccount. run.
  rewrite Hunknown. by destruct st.
Qed.

(** ** Token acquisition *)

Lemma only_warnings_silent (events : list Event) :
  Forall (λ e, ∃ text, e = Log Warn text) events →
  silent_requests events = [] ∧ device_requests events = []
  ∧ Forall (λ e, persists e = false) events.
Proof.
  induction 1 as [|e events [text ->] _ (IH1 & IH2 & IH3)]; [done|].
  unfold silent_requests, device_requests in *. cbn. rewrite IH1, IH2.
  repeat split. by constructor.
Qed.

(** C10. [getToken] touches neither the keychain nor the fallback files,
    whatever path it takes: of the manager's fields it can only change
    [accessToken], [tokenExpiry] and the client. *)
Theorem getToken_persists_nothing st (forceRefresh : bool) :
  let st' := snd (getToken forceRefresh st) in
  keychain (world st') = keychain (world st)
  ∧ keychain_faults (world st') = keychain_faults (world st)
  ∧ files (world st') = files (world st)
  ∧ Forall (λ e, persists e = false) (events_since st st')
  ∧ scopes (this st') = scopes (this st)
  ∧ selectedAccountId (this st') = selectedAccountId (this st)
  ∧ oauthToken (this st') = oauthToken (this st)
  ∧ isOAuthMode (this st') = isOAuthMode (this st).
Proof.
  unfold getToken. run.
  destruct (passthrough (this st)).
  { cbn [snd]. unfold events_since. rewrite drop_whole. by repeat constructor. }
  destruct (cache_hit _ _ _).
  { cbn [snd]. unfold events_since. rewrite drop_whole. by repeat constructor. }
  destruct (getCurrentAccount_frame st) as (r & events & -> & Hlog & _).
  apply only_warnings_silent in Hlog as (_ & _ & Hlog).
  destruct r as [account|].
  - unfold msal_acquireTokenSilent. run.
    destruct (Msal.acquireTokenSilent _ _) as [[e|response] p]; run.
    + repeat split; try done.
      since. apply Forall_app. split; [done|]. by repeat constructor.
    + repeat split; try done.
      since. apply Forall_app. split; [done|]. by repeat constructor.
  - run. repeat split; try done. by since.
Qed.

(** C1. When [getToken] is past its two early returns (no passthrough, no
    cached token it may return): with no current account it throws
    [NoAccount]; with one, it sends the client exactly one silent request
    for that account and the working scopes and no device-code request;
    if the client refuses, it throws [SilentAcquisitionFailed]; if the
    client answers, it stores the token and its expiry and returns the
    token. *)
Theorem getToken_silent_acquisition st (forceRefresh : bool) :
  passthrough (this st) = false →
  cache_hit (this st) (clock (world st)) forceRefresh = false →
  let '(result, st') := getToken forceRefresh st in
  match fst (getCurrentAccount st) with
  | Normal None =>
      result = Throw NoAccount
      ∧ silent_requests (events_since st st') = []
      ∧ device_requests (events_since st st') = []
  | Normal (Some account) =>
      let request :=
        {| Msal.request_account := account;
           Msal.request_scopes := scopes (this st) |} in
      silent_requests (events_since st st') = [request]
      ∧ device_requests (events_since st st') = []
      ∧ match fst (Msal.acquireTokenSilent (msalApp (this st)) request) with
        | inl _ => result = Throw SilentAcquisitionFailed
        | inr response =>
            result = Normal (Some (Msal.accessToken response))
            ∧ accessToken (this st') = Some (Msal.accessToken response)
            ∧ tokenExpiry (this st') = Msal.expiresOn response
        end
  | Throw _ => False
  end.
Proof.
  intros Hpass Hhit. unfold getToken. run. rewrite Hpass, Hhit.
  destruct (getCurrentAccount_frame st) as (r & events & -> & Hlog & _).
  apply only_warnings_silent in Hlog as (Hsilent & Hdevice & _).
  cbn [fst]. destruct r as [account|].
  - unfold msal_acquireTokenSilent. run.
    destruct (Msal.acquireTokenSilent _ _) as [[e|response] p]; run.
    + since. unfold silent_requests, device_requests in *.
      rewrite !omap_app, Hsilent, Hdevice. done.
    + since. unfold silent_requests, device_requests in *.
      rewrite !omap_app, Hsilent, Hdevice. done.
  - run. by since.
Qed.

(** ** Invalidation of the cached token *)

(** C5, amended. For a listed account: [selectAccount] returns [true],
    selects it and clears the cached token and expiry; [removeAccount],
    when the client removes the account, returns [true] and clears the
    cached token and expiry exactly when the removed account is the
    selected one, and otherwise leaves selection, token and expiry as
    they were. *)
Theorem token_cleared_with_selection st (accountId : string)
    (account : Msal.AccountInfo) :
  find_account accountId (Msal.getAllAccounts (msalApp (this st)))
  = Some account →
  let '(selected, st1) := selectAccount accountId st in
  let '(removed, st2) := removeAccount accountId st in
  (selected = Normal true
   ∧ selectedAccountId (this st1) = Some accountId
   ∧ accessToken (this st1) = None
   ∧ tokenExpiry (this st1) = None)
  ∧ match Msal.removeAccount (msalApp (this st)) account with
    | inr _ =>
        removed = Normal true
        ∧ if bool_decide (selectedAccountId (this st) = Some accountId)
          then selectedAccountId (this st2) = None
               ∧ accessToken (this st2) = None
               ∧ tokenExpiry (this st2) = None
          else selectedAccountId (this st2) = selectedAccountId (this st)
               ∧ accessToken (this st2) = accessToken (this st)
               ∧ tokenExpiry (this st2) = tokenExpiry (this st)
    | inl _ =>
        removed = Normal false
        ∧ selectedAccountId (this st2) = selectedAccountId (this st)
        ∧ accessToken (this st2) = accessToken (this st)
        ∧ tokenExpiry (this st2) = tokenExpiry (this st)
    end.
Proof.
  intros Hfound. unfold selectAccount, removeAccount. run.
  rewrite Hfound. run. rewrite saveSelectedAccount_run. run.
  rewrite cache_removeAccount_run.
  destruct (Msal.removeAccount _ _) as [e|p]; run; [done|].
  destruct (bool_decide _); run; [|done].
  rewrite saveSelectedAccount_run. by run.
Qed.

(** ** Passthrough mode *)

(** C2, amended. While [isOAuthMode] is set and the injected token is a
    non-empty string, [getToken] returns that token whatever
    [forceRefresh] and the cached token are, and leaves the whole state,
    the client and the trace included, as it was. *)
Theorem getToken_passthrough st (token : string) (forceRefresh : bool) :
  isOAuthMode (this st) = true →
  oauthToken (this st) = Some token →
  token ≠ EmptyString →
  getToken forceRefresh st = (Normal (Some token), st).
Proof.
  intros Hmode Htoken Hne. unfold getToken, passthrough. run.
  rewrite Hmode, Htoken. by destruct token.
Qed.

(** ** Scope expansion *)

Lemma traced_traced (a b : list Event) st :
  traced b (traced a st) = traced (a ++ b) st.
Proof. unfold traced, with_trace. cbn. by rewrite <- app_assoc. Qed.

(** A loop whose body only adds events only adds events. *)
Lemma for_of_traced {A} (f : A → list Event) (body : A → Action P unit)
    (xs : list A) st :
  (∀ x st, body x st = (Normal tt, traced (f x) st)) →
  for_of xs body st = (Normal tt, traced (concat (f <$> xs)) st).
Proof.
  intros Hbody. revert st. induction xs as [|x xs IH]; intros st.
  - by rewrite traced_nil.
  - cbn [for_of]. unfold bind. rewrite Hbody, IH, traced_traced. done.
Qed.

Lemma only_logs_silent (events : list Event) :
  Forall (λ e, ∃ level text, e = Log level text) events →
  silent_requests events = [] ∧ device_requests events = [].
Proof.
  induction 1 as [|e events (level & text & ->) _ [IH1 IH2]]; [done|].
  unfold silent_requests, device_requests in *. cbn. by rewrite IH1, IH2.
Qed.

Lemma device_requests_app (a b : list Event) :
  device_requests (a ++ b) = (device_requests a ++ device_requests b)%list.
Proof. apply omap_app. Qed.

Lemma device_requests_cons (e : Event) (events : list Event) :
  device_requests (e :: events)
  = (device_requests [e] ++ device_requests events)%list.
Proof. apply (device_requests_app [e]). Qed.

Lemma device_requests_keytar (service key password : string)
    (events : list Event) :
  device_requests (KeytarSetPassword service key password :: events)
  = device_requests events.
Proof. reflexivity. Qed.

Lemma device_requests_log (level : LogLevel) (text : string)
    (events : list Event) :
  device_requests (Log level text :: events) = device_requests events.
Proof. reflexivity. Qed.

Lemma device_requests_request (requested : list string)
    (events : list Event) :
  device_requests (DeviceCodeRequest requested :: events)
  = requested :: device_requests events.
Proof. reflexivity. Qed.

Ltac count_requests :=
  rewrite ?device_requests_app, ?device_requests_keytar,
    ?device_requests_log, ?device_requests_request.

Ltac find_event :=
  rewrite ?elem_of_app, ?elem_of_cons; eauto 20.

Lemma expansion_prompts_no_request (has_hack : bool) (msgs : list string) :
  device_requests (concat (expansion_prompt has_hack <$> msgs)) = [].
Proof.
  unfold device_requests. induction msgs as [|msg msgs IH]; [done|].
  cbn [fmap list_fmap concat]. rewrite omap_app, IH.
  by destruct has_hack.
Qed.

(** One device-code exchange whose callback only adds events. *)
Lemma device_code_run (requested : list string) (f : string → list Event)
    (callback : string → Action P unit) st :
  (∀ msg st, callback msg st = (Normal tt, traced (f msg) st)) →
  msal_acquireTokenByDeviceCode requested callback st
  = let '(d, p) := Msal.acquireTokenByDeviceCode (msalApp (this st)) requested in
    let st1 :=
      traced (DeviceCodeRequest requested :: concat (f <$> Msal.prompts d))
        {| this := with_msalApp p (this st); world := world st |} in
    match Msal.outcome d with
    | inl e => (Throw e, st1)
    | inr response => (Normal response, st1)
    end.
Proof.
  intros Hcallback. unfold msal_acquireTokenByDeviceCode. run.
  destruct (Msal.acquireTokenByDeviceCode _ _) as [d p]. run.
  rewrite (for_of_traced f) by done. unfold traced, with_trace.
  cbn [this world keychain keychain_faults files clock trace].
  rewrite <- app_assoc. by destruct (Msal.outcome d).
Qed.

Variable endpoints : list EndpointConfig.

(** C6, amended. [expandToWorkAccountScopes] asks the client for a
    device-code login with the full scope set. If the client throws, it
    returns [false] with the manager's fields, the keychain and the files
    as they were. Otherwise it returns [true], the working scopes are the
    full set, token and expiry are those of the response, and whenever
    the response carries an account that account becomes the selected
    one, whether or not one was selected before; the pointer and then
    the serialized cache are sent to the keychain, and each is stored
    there when the keychain accepts that write. *)
Theorem expandToWorkAccountScopes_outcome st (has_hack : bool) :
  let allScopes := buildAllScopes endpoints in
  let '(d, p) := Msal.acquireTokenByDeviceCode (msalApp (this st)) allScopes in
  let '(result, st') := expandToWorkAccountScopes endpoints has_hack st in
  device_requests (events_since st st') = [allScopes]
  ∧ match Msal.outcome d with
    | inl _ =>
        result = Normal false
        ∧ this st' = with_msalApp p (this st)
        ∧ keychain (world st') = keychain (world st)
        ∧ keychain_faults (world st') = keychain_faults (world st)
        ∧ files (world st') = files (world st)
    | inr response =>
        let token_save :=
          KeytarSetPassword SERVICE_NAME TOKEN_CACHE_ACCOUNT
            (Msal.serialize p) in
        result = Normal true
        ∧ scopes (this st') = allScopes
        ∧ accessToken (this st')
          = string_or_null (Msal.accessToken <$> response)
        ∧ tokenExpiry (this st') = response ≫= Msal.expiresOn
        ∧ token_save ∈ events_since st st'
        ∧ match response ≫= Msal.account with
          | Some account =>
              let selected := Some (Msal.homeAccountId account) in
              let pointer := Json.stringify_accountId selected in
              selectedAccountId (this st') = selected
              ∧ KeytarSetPassword SERVICE_NAME SELECTED_ACCOUNT_KEY pointer
                ∈ events_since st st'
              ∧ keychain (world st') !! (SERVICE_NAME, SELECTED_ACCOUNT_KEY)
                = (if accepts (keychain_faults (world st)) 0
                   then Some pointer
                   else keychain (world st)
                          !! (SERVICE_NAME, SELECTED_ACCOUNT_KEY))
              ∧ keychain (world st') !! (SERVICE_NAME, TOKEN_CACHE_ACCOUNT)
                = (if accepts (keychain_faults (world st)) 1
                   then Some (Msal.serialize p)
                   else keychain (world st)
                          !! (SERVICE_NAME, TOKEN_CACHE_ACCOUNT))
          | None =>
              selectedAccountId (this st') = selectedAccountId (this st)
              ∧ keychain (world st') !! (SERVICE_NAME, TOKEN_CACHE_ACCOUNT)
                = (if accepts (keychain_faults (world st)) 0
                   then Some (Msal.serialize p)
                   else keychain (world st)
                          !! (SERVICE_NAME, TOKEN_CACHE_ACCOUNT))
          end
    end.
Proof.
  intros allScopes. unfold expandToWorkAccountScopes. fold allScopes. run.
  rewrite (device_code_run _ (expansion_prompt has_hack)).
  2:{ intros msg st0. unfold traced, expansion_prompt, with_trace.
      destruct has_hack;
        cbn [this world keychain keychain_faults files clock trace];
        by rewrite <- app_assoc. }
  run.
  destruct (Msal.acquireTokenByDeviceCode _ _) as [d p].
  destruct (Msal.outcome d) as [e|response]; unfold traced; run.
  { split; [|done]. since.
    rewrite !device_requests_app, (device_requests_cons (DeviceCodeRequest _)).
    by rewrite expansion_prompts_no_request. }
  destruct (response ≫= Msal.account) as [account|].
  - rewrite saveSelectedAccount_run. run. rewrite saveTokenCache_run. run.
    match goal with |- context [after_save TOKEN_CACHE_ACCOUNT ?d ?wa ?fa ?w] =>
      destruct (after_save_trace TOKEN_CACHE_ACCOUNT d wa fa w)
        as (logs2 & Htr2 & Hlogs2);
      destruct (after_save_keychain TOKEN_CACHE_ACCOUNT d wa fa w)
        as [Hk2 _];
      set (A2 := after_save TOKEN_CACHE_ACCOUNT d wa fa w) in *
    end.
    match type of Htr2 with context [after_save SELECTED_ACCOUNT_KEY ?d ?wa ?fa ?w] =>
      destruct (after_save_trace SELECTED_ACCOUNT_KEY d wa fa w)
        as (logs1 & Htr1 & Hlogs1);
      destruct (after_save_keychain SELECTED_ACCOUNT_KEY d wa fa w)
        as [Hk1 Hf1];
      set (A1 := after_save SELECTED_ACCOUNT_KEY d wa fa w) in *
    end.
    cbn [trace keychain keychain_faults] in *.
    apply only_logs_silent in Hlogs1 as [_ Hlogs1].
    apply only_logs_silent in Hlogs2 as [_ Hlogs2].
    rewrite Htr1, <- !app_assoc in Htr2.
    erewrite !events_since_traced by exact Htr2.
    rewrite Hf1, accepts_drop in Hk2. rewrite Hk2, Hk1.
    split; [|repeat split; try done].
    + count_requests.
      by rewrite Hlogs1, Hlogs2, expansion_prompts_no_request.
    + find_event.
    + find_event.
    + destruct (accepts _ 1); [rewrite lookup_insert_ne by done|];
        destruct (accepts _ 0); by rewrite ?lookup_insert_eq.
    + destruct (accepts _ 1); [by rewrite lookup_insert_eq|].
      destruct (accepts _ 0); by rewrite ?lookup_insert_ne.
  - run. rewrite saveTokenCache_run. run.
    match goal with |- context [after_save TOKEN_CACHE_ACCOUNT ?d ?wa ?fa ?w] =>
      destruct (after_save_trace TOKEN_CACHE_ACCOUNT d wa fa w)
        as (logs2 & Htr2 & Hlogs2);
      destruct (after_save_keychain TOKEN_CACHE_ACCOUNT d wa fa w)
        as [Hk2 _];
      set (A2 := after_save TOKEN_CACHE_ACCOUNT d wa fa w) in *
    end.
    cbn [trace keychain keychain_faults] in *.
    apply only_logs_silent in Hlogs2 as [_ Hlogs2].
    rewrite <- !app_assoc in Htr2.
    erewrite !events_since_traced by exact Htr2.
    rewrite Hk2.
    split; [|repeat split; try done].
    + count_requests. by rewrite Hlogs2, expansion_prompts_no_request.
    + find_event.
    + destruct (accepts _ 0); by rewrite ?lookup_insert_eq.
Qed.

(** ** What the calls leave alone *)

Section Preserved.

Context {X : Type} (f : State P → X).

Lemma preserves_ret {A} (v : A) : preserves f (ret v).
Proof. by intros st. Qed.

Lemma preserves_throw {A} (e : Exn) : preserves f (throw (A := A) e).
Proof. by intros st. Qed.

Lemma preserves_get_this : preserves f get_this.
Proof. by intros st. Qed.

Lemma preserves_get_world : preserves f get_world.
Proof. by intros st. Qed.

Lemma preserves_bind {A B} (a : Action P A) (k : A → Action P B) :
  preserves f a → (∀ v, preserves f (k v)) → preserves f (bind a k).
Proof.
  intros Ha Hk st. unfold bind. specialize (Ha st).
  destruct (a st) as [[v|e] st1]; cbn [snd] in *; [|done].
  by rewrite Hk.
Qed.

Lemma preserves_try_catch {A} (a : Action P A) (h : Exn → Action P A) :
  preserves f a → (∀ e, preserves f (h e)) → preserves f (try_catch a h).
Proof.
  intros Ha Hh st. unfold try_catch. specialize (Ha st).
  destruct (a st) as [[v|e] st1]; cbn [snd] in *; [done|].
  by rewrite Hh.
Qed.

Lemma preserves_update_this (g : AuthManager P → AuthManager P) :
  (∀ st, f {| this := g (this st); world := world st |} = f st) →
  preserves f (update_this g).
Proof. intros Hg st. apply Hg. Qed.

Lemma preserves_update_world (g : World → World) :
  (∀ st, f {| this := this st; world := g (world st) |} = f st) →
  preserves f (update_world g).
Proof. intros Hg st. apply Hg. Qed.

Lemma preserves_for_of {A} (xs : list A) (body : A → Action P unit) :
  (∀ x, preserves f (body x)) → preserves f (for_of xs body).
Proof.
  intros Hbody. induction xs as [|x xs IH]; cbn [for_of].
  - apply preserves_ret.
  - by apply preserves_bind.
Qed.

End Preserved.

(** Splits an action along its binds, handlers and branches; what is left
    are the assignments that touch the observation. *)
Ltac frame :=
  repeat first
    [ apply preserves_ret | apply preserves_throw
    | apply preserves_get_this | apply preserves_get_world
    | apply preserves_bind; [|intros ?]
    | apply preserves_try_catch; [|intros ?]
    | apply preserves_for_of; intros ?
    | apply preserves_update_this; intros ?; reflexivity
    | apply preserves_update_world; intros ?; reflexivity
    | progress unfold logger_info, logger_warn, logger_error, emit, Date_now,
        getAllAccounts, listAccounts, cache_removeAccount, cache_serialize,
        msal_acquireTokenSilent, msal_acquireTokenByDeviceCode,
        keytar_setPassword, keytar_deletePassword, keytar_call,
        fs_writeFileSync, fs_existsSync, fs_unlinkSync, identifier,
        saveTokenCache, saveSelectedAccount, getCurrentAccount,
        getSelectedAccountId
    | progress cbv beta zeta iota
    | match goal with
      | |- preserves _ (match ?x with _ => _ end) => destruct x
      | |- preserves _ (let '(_, _) := ?x in _) => destruct x
      end ].





(** X6. The calls that only ask ([getToken], [getCurrentAccount],
    [testLogin], [hasWorkAccountPermissions], [listAccounts],
    [getTokenForAccount], [getSelectedAccountId]) never change the working
    scopes or the selection and never call the keychain or touch the
    files, whether they return or throw. *)
Theorem queries_keep_durable_state st (c : Call) :
  is_query c = true →
  durable (perform endpoints st c) = durable st.
Proof.
  destruct c; try discriminate; intros _; cbn [perform].
  - assert (preserves durable (getToken forceRefresh)) as H0
      by (unfold getToken; frame). apply H0.
  - assert (preserves durable getCurrentAccount) as H0 by frame. apply H0.
  - assert (preserves durable (testLogin graph)) as H0
      by (unfold testLogin, getToken; frame). apply H0.
  - assert (preserves durable (hasWorkAccountPermissions endpoints)) as H0
      by (unfold hasWorkAccountPermissions; frame). apply H0.
  - assert (preserves durable listAccounts) as H0 by frame. apply H0.
  - assert (preserves durable (getTokenForAccount accountId)) as H0
      by (unfold getTokenForAccount; frame). apply H0.
  - assert (preserves durable getSelectedAccountId) as H0 by frame.
    apply H0.
Qed.

(** X7. The queries that do not go through [getToken]
    ([getCurrentAccount], [hasWorkAccountPermissions], [listAccounts],
    [getTokenForAccount], [getSelectedAccountId]) leave the cached token
    and its expiry as they were: a token obtained by id or by the
    work-account probe is never cached. *)
Theorem probes_keep_token_record st (c : Call) :
  leaves_token c = true →
  token_record (perform endpoints st c) = token_record st.
Proof.
  destruct c; try discriminate; intros _; cbn [perform].
  - assert (preserves token_record getCurrentAccount) as H0 by frame.
    apply H0.
  - assert (preserves token_record (hasWorkAccountPermissions endpoints))
      as H0 by (unfold hasWorkAccountPermissions; frame). apply H0.
  - assert (preserves token_record listAccounts) as H0 by frame. apply H0.
  - assert (preserves token_record (getTokenForAccount accountId)) as H0
      by (unfold getTokenForAccount; frame). apply H0.
  - assert (preserves token_record getSelectedAccountId) as H0 by frame.
    apply H0.
Qed.


(** ** The current account *)

Lemma find_ext {A} (p q : A → bool) (xs : list A) :
  (∀ x, p x = q x) → Js.find p xs = Js.find q xs.
Proof.
  intros Hpq. induction xs as [|x xs IH]; [done|].
  cbn [Js.find]. by rewrite Hpq, IH.
Qed.

Lemma find_by_selection (accountId : string)
    (accounts : list Msal.AccountInfo) :
  Js.find
    (λ account, bool_decide (Some (Msal.homeAccountId account) = Some accountId))
    accounts
  = find_account accountId accounts.
Proof.
  apply find_ext. intros account. apply bool_decide_ext.
  split; [by intros [= ->]|by intros ->].
Qed.

Lemma find_account_listed (accountId : string)
    (accounts : list Msal.AccountInfo) (account : Msal.AccountInfo) :
  find_account accountId accounts = Some account →
  account ∈ accounts ∧ Msal.homeAccountId account = accountId.
Proof.
  intros Hfound. apply find_some in Hfound as [Hin Hid].
  split; [done|]. by apply bool_decide_eq_true in Hid.
Qed.

Lemma getCurrentAccount_found st (accountId : string)
    (account : Msal.AccountInfo) :
  selectedAccountId (this st) = Some accountId →
  accountId ≠ EmptyString →
  find_account accountId (Msal.getAllAccounts (msalApp (this st)))
  = Some account →
  getCurrentAccount st = (Normal (Some account), st).
Proof.
  intros Hsel Hne Hfound. unfold getCurrentAccount. run.
  destruct (Msal.getAllAccounts (msalApp (this st))) as [|a accounts] eqn:Hacc;
    [done|].
  cbn [length Nat.eqb]. rewrite Hsel.
  replace (Js.truthy_string (Some accountId)) with true
    by by destruct accountId.
  by rewrite find_by_selection, Hfound.
Qed.

(** X8. [getCurrentAccount] never throws and changes nothing but the log,
    to which it adds at most warnings. What it returns is an account the
    client lists, and it returns none exactly when the client lists
    none. *)
Theorem getCurrentAccount_listed st :
  let accounts := Msal.getAllAccounts (msalApp (this st)) in
  let '(result, st') := getCurrentAccount st in
  st' = traced (events_since st st') st
  ∧ Forall (λ e, ∃ text, e = Log Warn text) (events_since st st')
  ∧ match result with
    | Normal (Some account) => account ∈ accounts
    | Normal None => accounts = []
    | Throw _ => False
    end.
Proof.
  assert (st = traced (events_since st st) st
          ∧ Forall (λ e, ∃ text, e = Log Warn text) (events_since st st))
    as [Hsame Hquiet].
  { unfold events_since. rewrite drop_whole. by rewrite traced_nil. }
  unfold getCurrentAccount, getAllAccounts, logger_warn, emit, update_world,
    bind, get_this, ret.
  cbv beta zeta. cbn [this world fst snd].
  destruct (Msal.getAllAccounts (msalApp (this st))) as [|a accounts] eqn:Hacc;
    [done|].
  cbn [length Nat.eqb head].
  destruct (Js.truthy_string (selectedAccountId (this st))).
  - destruct (Js.find _ _) as [found|] eqn:Hfound.
    + by apply find_some in Hfound as [Hin _].
    + since. repeat split; [by repeat econstructor|apply list_elem_of_here].
  - repeat split; [done..|]. apply list_elem_of_here.
Qed.

(** X9. While a non-empty account id is selected, [getCurrentAccount]
    returns the first listed account with that id and leaves the state
    as it was. When no listed account has that id, it falls back to the
    first listed account and logs one warning; the stale selection stays
    in place. *)
Theorem getCurrentAccount_honours_selection st (accountId : string) :
  selectedAccountId (this st) = Some accountId →
  accountId ≠ EmptyString →
  match find_account accountId (Msal.getAllAccounts (msalApp (this st))) with
  | Some account => getCurrentAccount st = (Normal (Some account), st)
  | None =>
      match Msal.getAllAccounts (msalApp (this st)) with
      | [] => getCurrentAccount st = (Normal None, st)
      | first :: _ =>
          getCurrentAccount st
          = (Normal (Some first),
             traced [Log Warn ("Selected account " +:+ accountId
                               +:+ " not found, falling back to first account")]
               st)
      end
  end.
Proof.
  intros Hsel Hne.
  destruct (find_account _ _) as [account|] eqn:Hfound.
  { by apply (getCurrentAccount_found st accountId). }
  unfold getCurrentAccount. run.
  destruct (Msal.getAllAccounts (msalApp (this st))) as [|a accounts] eqn:Hacc;
    [done|].
  cbn [length Nat.eqb head]. rewrite Hsel.
  replace (Js.truthy_string (Some accountId)) with true
    by by destruct accountId.
  by rewrite find_by_selection, Hfound.
Qed.

(** X10. After [selectAccount] of a listed account with a non-empty id,
    [getCurrentAccount] returns that account, the first listed one with
    that id, and changes nothing. *)
Theorem selectAccount_then_current st (accountId : string)
    (account : Msal.AccountInfo) :
  find_account accountId (Msal.getAllAccounts (msalApp (this st)))
  = Some account →
  accountId ≠ EmptyString →
  getCurrentAccount (snd (selectAccount accountId st))
  = (Normal (Some account), snd (selectAccount accountId st)).
Proof.
  intros Hfound Hne. apply (getCurrentAccount_found _ accountId); [|done|].
  - unfold selectAccount. run. rewrite Hfound. run.
    rewrite saveSelectedAccount_run. by run.
  - unfold selectAccount. run. rewrite Hfound. run.
    rewrite saveSelectedAccount_run. by run.
Qed.

(** ** Reuse of the cached token *)




(** X12. A [getToken] that throws leaves the cached token and its expiry
    as they were: a failed refresh does not discard a token that is
    still cached. *)
Theorem getToken_failure_keeps_token st (forceRefresh : bool) (e : Exn) :
  fst (getToken forceRefresh st) = Throw e →
  token_record (snd (getToken forceRefresh st)) = token_record st.
Proof.
  unfold getToken. run.
  destruct (passthrough _); [done|]. destruct (cache_hit _ _ _); [done|].
  destruct (getCurrentAccount_frame st) as (r & events & -> & _ & _).
  destruct r as [account|]; [|done].
  unfold msal_acquireTokenSilent. run.
  by destruct (Msal.acquireTokenSilent _ _) as [[e'|response] p]; run.
Qed.

(** ** Tokens by account id *)

(** X13. For a listed account id, [getTokenForAccount] sends the client
    exactly one silent request, for the first listed account with that id
    and the working scopes, whatever account is selected and whether or
    not a token is cached or injected. It returns the token of the answer
    or rethrows the client's own exception, and of the manager it changes
    the client only. *)
Theorem getTokenForAccount_listed st (accountId : string)
    (account : Msal.AccountInfo) :
  find_account accountId (Msal.getAllAccounts (msalApp (this st)))
  = Some account →
  let request :=
    {| Msal.request_account := account;
       Msal.request_scopes := scopes (this st) |} in
  let '(answer, p) := Msal.acquireTokenSilent (msalApp (this st)) request in
  let '(result, st') := getTokenForAccount accountId st in
  this st' = with_msalApp p (this st)
  ∧ silent_requests (events_since st st') = [request]
  ∧ device_requests (events_since st st') = []
  ∧ result = match answer with
             | inl e => Throw e
             | inr response => Normal (Some (Msal.accessToken response))
             end.
Proof.
  intros Hfound request. unfold getTokenForAccount. run. rewrite Hfound.
  unfold msal_acquireTokenSilent. run. fold request.
  destruct (Msal.acquireTokenSilent _ _) as [[e|response] p]; run.
  - repeat split; by since.
  - repeat split; by since.
Qed.

(** ** The work-account probe *)

(** X16. [hasWorkAccountPermissions] never throws. Without a current
    account it answers [false] and asks the client nothing. With one it
    sends exactly one silent request, for that account and the first
    scope of the flagged catalog entries (no scope when there is none),
    and answers whether the client granted it. It never starts a
    device-code login. *)
Theorem hasWorkAccountPermissions_probe st :
  let '(result, st') := hasWorkAccountPermissions endpoints st in
  device_requests (events_since st st') = []
  ∧ match fst (getCurrentAccount st) with
    | Normal (Some account) =>
        let request :=
          {| Msal.request_scopes := take 1 (workScopes endpoints);
             Msal.request_account := account |} in
        silent_requests (events_since st st') = [request]
        ∧ result
          = Normal
              match fst (Msal.acquireTokenSilent (msalApp (this st)) request) with
              | inl _ => false
              | inr _ => true
              end
    | _ =>
        silent_requests (events_since st st') = []
        ∧ result = Normal false
    end.
Proof.
  unfold hasWorkAccountPermissions. run.
  destruct (getCurrentAccount_frame st) as (r & events & -> & Hlog & _).
  apply only_warnings_silent in Hlog as (Hsilent & Hdevice & _).
  cbn [fst]. destruct r as [account|].
  - unfold msal_acquireTokenSilent. run.
    destruct (Msal.acquireTokenSilent _ _) as [[e|response] p]; run.
    + since. unfold silent_requests, device_requests in *.
      rewrite !omap_app, Hsilent, Hdevice. done.
    + since. unfold silent_requests, device_requests in *.
      rewrite !omap_app, Hsilent, Hdevice. done.
  - run. by since.
Qed.

(** ** The persisted selection *)

(** X17. [selectAccount] of a listed account makes its id the one
    [getSelectedAccountId] returns and sends the pointer to the keychain,
    where it is stored when the keychain accepts the write. The entry of
    the token cache and the files are left as they were, also when the
    keychain refuses. *)
Theorem selectAccount_persists_pointer st (accountId : string)
    (account : Msal.AccountInfo) :
  find_account accountId (Msal.getAllAccounts (msalApp (this st)))
  = Some account →
  fst (getSelectedAccountId (snd (selectAccount accountId st)))
  = Normal (Some accountId)
  ∧ keychain (world (snd (selectAccount accountId st)))
      !! (SERVICE_NAME, SELECTED_ACCOUNT_KEY)
    = (if accepts (keychain_faults (world st)) 0
       then Some (Json.stringify_accountId (Some accountId))
       else keychain (world st) !! (SERVICE_NAME, SELECTED_ACCOUNT_KEY))
  ∧ keychain (world (snd (selectAccount accountId st)))
      !! (SERVICE_NAME, TOKEN_CACHE_ACCOUNT)
    = keychain (world st) !! (SERVICE_NAME, TOKEN_CACHE_ACCOUNT)
  ∧ files (world (snd (selectAccount accountId st))) = files (world st).
Proof.
  intros Hfound. unfold selectAccount, getSelectedAccountId. run.
  rewrite Hfound. run. rewrite saveSelectedAccount_run. run.
  match goal with |- context [after_save SELECTED_ACCOUNT_KEY ?d ?wa ?fa ?w] =>
    destruct (after_save_keychain SELECTED_ACCOUNT_KEY d wa fa w) as [Hk _];
    pose proof (after_save_files SELECTED_ACCOUNT_KEY d wa fa w) as Hf;
    set (A := after_save SELECTED_ACCOUNT_KEY d wa fa w) in *
  end.
  cbn [keychain keychain_faults files] in *. rewrite Hk, Hf.
  repeat split.
  - destruct (accepts _ 0); by rewrite ?lookup_insert_eq.
  - destruct (accepts _ 0); by rewrite ?lookup_insert_ne.
Qed.

(** X19. [removeAccount] never rewrites the persisted token cache and
    never touches the files: the keychain copy of the cache still holds
    the removed account. The pointer in the keychain is rewritten, to
    JSON for no account, only when the client removed the account, the
    account was the selected one and the keychain accepts the write. *)
Theorem removeAccount_persistence st (accountId : string) :
  let entries := keychain (world st) in
  let st' := snd (removeAccount accountId st) in
  keychain (world st') !! (SERVICE_NAME, TOKEN_CACHE_ACCOUNT)
  = entries !! (SERVICE_NAME, TOKEN_CACHE_ACCOUNT)
  ∧ files (world st') = files (world st)
  ∧ keychain (world st') !! (SERVICE_NAME, SELECTED_ACCOUNT_KEY)
    = match find_account accountId
              (Msal.getAllAccounts (msalApp (this st))) with
      | Some account =>
          match Msal.removeAccount (msalApp (this st)) account with
          | inr _ =>
              if bool_decide (selectedAccountId (this st) = Some accountId)
                 && accepts (keychain_faults (world st)) 0
              then Some (Json.stringify_accountId None)
              else entries !! (SERVICE_NAME, SELECTED_ACCOUNT_KEY)
          | inl _ => entries !! (SERVICE_NAME, SELECTED_ACCOUNT_KEY)
          end
      | None => entries !! (SERVICE_NAME, SELECTED_ACCOUNT_KEY)
      end.
Proof.
  unfold removeAccount. run.
  destruct (find_account _ _) as [account|]; run; [|done].
  rewrite cache_removeAccount_run.
  destruct (Msal.removeAccount _ _) as [e|p]; run; [done|].
  destruct (bool_decide _); run; [|done].
  rewrite saveSelectedAccount_run. run.
  match goal with |- context [after_save SELECTED_ACCOUNT_KEY ?d ?wa ?fa ?w] =>
    destruct (after_save_keychain SELECTED_ACCOUNT_KEY d wa fa w) as [Hk _];
    pose proof (after_save_files SELECTED_ACCOUNT_KEY d wa fa w) as Hf;
    set (A := after_save SELECTED_ACCOUNT_KEY d wa fa w) in *
  end.
  cbn [keychain keychain_faults files andb] in *. rewrite Hk, Hf.
  repeat split.
  - destruct (accepts _ 0); by rewrite ?lookup_insert_ne.
  - destruct (accepts _ 0); by rewrite ?lookup_insert_eq.
Qed.

(** ** Device-code login *)

Lemma login_prompts_no_request (has_hack : bool) (msgs : list string) :
  device_requests (concat (login_prompt has_hack <$> msgs)) = [].
Proof.
  unfold device_requests. induction msgs as [|msg msgs IH]; [done|].
  cbn [fmap list_fmap concat]. rewrite omap_app, IH.
  by destruct has_hack.
Qed.

(** X14. [acquireTokenByDeviceCode] asks the client for one device-code
    login with the working scopes, which it never changes, and never
    touches the files. If the client throws, it rethrows the same
    exception with the manager's fields and the keychain as they were.
    Otherwise it returns the token of the response, stores it with its
    expiry and sends the serialized cache to the keychain; the account of
    the response becomes the selected one only when none was selected,
    and an existing selection is kept. *)
Theorem acquireTokenByDeviceCode_outcome st (has_hack : bool) :
  let requested := scopes (this st) in
  let '(d, p) := Msal.acquireTokenByDeviceCode (msalApp (this st)) requested in
  let '(result, st') := acquireTokenByDeviceCode has_hack st in
  device_requests (events_since st st') = [requested]
  ∧ scopes (this st') = requested
  ∧ files (world st') = files (world st)
  ∧ match Msal.outcome d with
    | inl e =>
        result = Throw e
        ∧ this st' = with_msalApp p (this st)
        ∧ keychain (world st') = keychain (world st)
        ∧ keychain_faults (world st') = keychain_faults (world st)
    | inr response =>
        result = Normal (string_or_null (Msal.accessToken <$> response))
        ∧ accessToken (this st')
          = string_or_null (Msal.accessToken <$> response)
        ∧ tokenExpiry (this st') = response ≫= Msal.expiresOn
        ∧ KeytarSetPassword SERVICE_NAME TOKEN_CACHE_ACCOUNT
            (Msal.serialize p)
          ∈ events_since st st'
        ∧ match response ≫= Msal.account with
          | Some account =>
              if Js.truthy_string (selectedAccountId (this st))
              then selectedAccountId (this st') = selectedAccountId (this st)
              else
                let selected := Some (Msal.homeAccountId account) in
                selectedAccountId (this st') = selected
                ∧ KeytarSetPassword SERVICE_NAME SELECTED_ACCOUNT_KEY
                    (Json.stringify_accountId selected)
                  ∈ events_since st st'
          | None =>
              selectedAccountId (this st') = selectedAccountId (this st)
          end
    end.
Proof.
  intros requested. unfold acquireTokenByDeviceCode. fold requested. run.
  rewrite (device_code_run _ (login_prompt has_hack)).
  2:{ intros msg st0. unfold traced, login_prompt, with_trace.
      destruct has_hack;
        cbn [this world keychain keychain_faults files clock trace];
        by rewrite <- app_assoc. }
  run. fold requested.
  destruct (Msal.acquireTokenByDeviceCode _ _) as [d p].
  destruct (Msal.outcome d) as [e|response]; unfold traced; run.
  { split; [|done]. since. count_requests.
    by rewrite login_prompts_no_request. }
  destruct (response ≫= Msal.account) as [account|].
  - destruct (Js.truthy_string (selectedAccountId (this st))); cbn [negb]; run.
    + rewrite saveTokenCache_run. run.
      match goal with |- context [after_save TOKEN_CACHE_ACCOUNT ?d ?wa ?fa ?w] =>
        destruct (after_save_trace TOKEN_CACHE_ACCOUNT d wa fa w)
          as (logs2 & Htr2 & Hlogs2);
        pose proof (after_save_files TOKEN_CACHE_ACCOUNT d wa fa w) as Hf2;
        set (A2 := after_save TOKEN_CACHE_ACCOUNT d wa fa w) in *
      end.
      cbn [trace files] in *.
      apply only_logs_silent in Hlogs2 as [_ Hlogs2].
      rewrite <- !app_assoc in Htr2.
      erewrite !events_since_traced by exact Htr2.
      repeat split; try done.
      * count_requests.
        by rewrite Hlogs2, login_prompts_no_request.
      * find_event.
    + rewrite saveSelectedAccount_run. run. rewrite saveTokenCache_run. run.
      match goal with |- context [after_save TOKEN_CACHE_ACCOUNT ?d ?wa ?fa ?w] =>
        destruct (after_save_trace TOKEN_CACHE_ACCOUNT d wa fa w)
          as (logs2 & Htr2 & Hlogs2);
        pose proof (after_save_files TOKEN_CACHE_ACCOUNT d wa fa w) as Hf2;
        set (A2 := after_save TOKEN_CACHE_ACCOUNT d wa fa w) in *
      end.
      match type of Htr2 with context [after_save SELECTED_ACCOUNT_KEY ?d ?wa ?fa ?w] =>
        destruct (after_save_trace SELECTED_ACCOUNT_KEY d wa fa w)
          as (logs1 & Htr1 & Hlogs1);
        pose proof (after_save_files SELECTED_ACCOUNT_KEY d wa fa w) as Hf1;
        set (A1 := after_save SELECTED_ACCOUNT_KEY d wa fa w) in *
      end.
      cbn [trace files] in *.
      apply only_logs_silent in Hlogs1 as [_ Hlogs1].
      apply only_logs_silent in Hlogs2 as [_ Hlogs2].
      rewrite Htr1, <- !app_assoc in Htr2.
      erewrite !events_since_traced by exact Htr2.
      repeat split; try done.
      * count_requests.
        by rewrite Hlogs1, Hlogs2, login_prompts_no_request.
      * congruence.
      * find_event.
      * find_event.
  - run. rewrite saveTokenCache_run. run.
    match goal with |- context [after_save TOKEN_CACHE_ACCOUNT ?d ?wa ?fa ?w] =>
      destruct (after_save_trace TOKEN_CACHE_ACCOUNT d wa fa w)
        as (logs2 & Htr2 & Hlogs2);
      pose proof (after_save_files TOKEN_CACHE_ACCOUNT d wa fa w) as Hf2;
      set (A2 := after_save TOKEN_CACHE_ACCOUNT d wa fa w) in *
    end.
    cbn [trace files] in *.
    apply only_logs_silent in Hlogs2 as [_ Hlogs2].
    rewrite <- !app_assoc in Htr2.
    erewrite !events_since_traced by exact Htr2.
    repeat split; try done.
    + count_requests.
      by rewrite Hlogs2, login_prompts_no_request.
    + find_event.
Qed.

(** ** What logout asks of the keychain *)

(** X15. Once the accounts are removed, [logout] asks the keychain to
    delete the token cache. Only when that call does not throw does it
    ask for the selected-account pointer as well: a keychain that fails
    on the first deletion keeps both entries, and one that fails on the
    second keeps the pointer, although the selection in memory is
    cleared. When removing an account throws, the keychain is never
    asked. *)
Theorem logout_keychain_deletions st :
  let accounts := Msal.getAllAccounts (msalApp (this st)) in
  let faults := keychain_faults (world st) in
  let entries := keychain (world st) in
  let '(result, st') := logout st in
  match fst (for_of accounts cache_removeAccount st) with
  | Throw _ =>
      keychain_deletes (events_since st st') = []
      ∧ keychain (world st') = entries
  | Normal _ =>
      if accepts faults 0 then
        keychain_deletes (events_since st st')
        = [TOKEN_CACHE_ACCOUNT; SELECTED_ACCOUNT_KEY]
        ∧ keychain (world st')
          = (if accepts faults 1
             then delete (SERVICE_NAME, SELECTED_ACCOUNT_KEY)
                    (delete (SERVICE_NAME, TOKEN_CACHE_ACCOUNT) entries)
             else delete (SERVICE_NAME, TOKEN_CACHE_ACCOUNT) entries)
      else
        keychain_deletes (events_since st st') = [TOKEN_CACHE_ACCOUNT]
        ∧ keychain (world st') = entries
  end.
Proof.
  unfold logout, fs_existsSync, keytar_deletePassword, keytar_call.
  rewrite !fs_not_in_scope. run.
  destruct (remove_all_frame (Msal.getAllAccounts (msalApp (this st))) st)
    as (r & p & ->).
  destruct r as [[]|e]; run; [|by since].
  destruct (keychain_faults (world st)) as [|[e1|] [|[e2|] rest]];
    run; by since.
Qed.

(** ** The login test *)

(** X18. [testLogin] never throws: every failure comes back as a report.
    The report says success exactly when [getToken] returned a non-empty
    token and the Graph endpoint, asked with that token, responded ok
    with a body that parses; the report then carries the user data of
    that body, and carries none otherwise. *)
Theorem testLogin_reports st (graph : string → Login.GraphAnswer) :
  ∃ report,
    fst (testLogin graph st) = Normal report
    ∧ (Login.success report = true
       ↔ ∃ token status data text,
           fst (getToken false (traced [Log Info "Testing login..."] st))
           = Normal (Some token)
           ∧ token ≠ EmptyString
           ∧ graph token = Login.Responds true status (inr data) text
           ∧ Login.userData report = Some data)
    ∧ (Login.success report = false → Login.userData report = None).
Proof.
  unfold testLogin. run. fold (traced [Log Info "Testing login..."] st).
  destruct (getToken false _) as [[token|e] st1]; run.
  2:{ eexists. split; [reflexivity|]. cbn. split; [|done].
      split; [done|]. by intros (? & ? & ? & ? & [=] & _). }
  destruct token as [token|].
  2:{ cbn. eexists. split; [reflexivity|]. cbn. split; [|done].
      split; [done|]. by intros (? & ? & ? & ? & [=] & _). }
  destruct token as [|c token].
  { cbn. eexists. split; [reflexivity|]. cbn. split; [|done].
    split; [done|]. by intros (? & ? & ? & ? & [= <-] & Hne & _). }
  cbn [Js.truthy_string negb Js.template]. run.
  destruct (graph (String c token)) as [e|[] status [e|data] [e'|text]] eqn:Hgraph;
    run; (eexists; split; [reflexivity|]); cbn;
    (split; [|done || (by intros [=])]);
    (split; [try done|]);
    try (intros (? & ? & ? & ? & [= <-] & _ & Hans & _);
         by rewrite Hgraph in Hans).
  - intros _. exists (String c token), status, data, (inl e').
    by destruct data.
  - intros _. exists (String c token), status, data, (inr text).
    by destruct data.
Qed.

End ManagerProperties.

(** * The properties on the sample data *)

(** [getToken] on a manager just constructed: the silent request goes out
    for alice, the first listed account, and her token is stored. *)
Lemma getToken_silent_acquisition_witness :
  passthrough (this Sample.started) = false
  ∧ cache_hit (this Sample.started) (clock (world Sample.started)) false
    = false
  ∧ silent_requests
      (events_since Sample.started (snd (getToken false Sample.started)))
    = [{| Msal.request_account := Sample.alice;
          Msal.request_scopes := scopes (this Sample.started) |}]
  ∧ device_requests
      (events_since Sample.started (snd (getToken false Sample.started)))
    = []
  ∧ fst (getToken false Sample.started) = Normal (Some "token-alice")
  ∧ accessToken (this (snd (getToken false Sample.started)))
    = Some "token-alice"
  ∧ tokenExpiry (this (snd (getToken false Sample.started))) = Some 5000%Z.
Proof.
  split; [reflexivity|]. split; [reflexivity|].
  exact (getToken_silent_acquisition Sample.started false eq_refl eq_refl).
Defined.

(** With nothing left to answer the silent request, [getToken] throws
    [SilentAcquisitionFailed] after its one request; with no account it
    throws [NoAccount]. *)
Example getToken_failures :
  let after_first := snd (getToken false Sample.started) in
  fst (getToken true after_first) = Throw SilentAcquisitionFailed
  ∧ length (silent_requests
              (events_since after_first (snd (getToken true after_first))))
    = 1
  ∧ fst (getToken false (Sample.fresh Sample.two_logins Sample.quiet_world))
    = Throw NoAccount.
Proof. by vm_compute. Qed.

(** C2 as stated fails: after the empty string is injected the manager is
    in OAuth mode, yet [getToken] does not return the injected token; it
    sends a silent request and returns alice's token. *)
Lemma getToken_empty_token_not_passed_through :
  isOAuthMode (this (Sample.injected EmptyString)) = true
  ∧ oauthToken (this (Sample.injected EmptyString)) = Some EmptyString
  ∧ fst (getToken false (Sample.injected EmptyString))
    = Normal (Some "token-alice")
  ∧ silent_requests
      (events_since (Sample.injected EmptyString)
         (snd (getToken false (Sample.injected EmptyString))))
    = [{| Msal.request_account := Sample.alice;
          Msal.request_scopes :=
            buildScopesFromEndpoints endpointsData false |}].
Proof. by vm_compute. Qed.

Lemma getToken_passthrough_witness :
  isOAuthMode (this (Sample.injected "bearer-token")) = true
  ∧ oauthToken (this (Sample.injected "bearer-token")) = Some "bearer-token"
  ∧ "bearer-token" ≠ EmptyString
  ∧ getToken true (Sample.injected "bearer-token")
    = (Normal (Some "bearer-token"), Sample.injected "bearer-token").
Proof.
  assert ("bearer-token" ≠ EmptyString) as Hne by done.
  split; [reflexivity|]. split; [reflexivity|]. split; [exact Hne|].
  exact (getToken_passthrough (Sample.injected "bearer-token") "bearer-token"
           true eq_refl eq_refl Hne).
Defined.

(** C5 as stated fails: alice signs in and is selected, bob signs in and his
    token is the cached one; removing bob succeeds and leaves his token in
    the cache, from which the next [getToken] returns it. *)
Lemma removeAccount_keeps_token_of_removed_account :
  selectedAccountId (this Sample.both_signed_in) = Some "id-alice"
  ∧ accessToken (this Sample.both_signed_in) = Some "token-bob"
  ∧ fst (removeAccount "id-bob" Sample.both_signed_in) = Normal true
  ∧ Msal.getAllAccounts
      (msalApp (this (snd (removeAccount "id-bob" Sample.both_signed_in))))
    = [Sample.alice]
  ∧ accessToken (this (snd (removeAccount "id-bob" Sample.both_signed_in)))
    = Some "token-bob"
  ∧ fst (getToken false (snd (removeAccount "id-bob" Sample.both_signed_in)))
    = Normal (Some "token-bob").
Proof. by vm_compute. Qed.

Lemma token_cleared_with_selection_witness :
  find_account "id-alice"
    (Msal.getAllAccounts (msalApp (this Sample.both_signed_in)))
  = Some Sample.alice
  ∧ (let '(selected, st1) := selectAccount "id-alice" Sample.both_signed_in in
     let '(removed, st2) := removeAccount "id-alice" Sample.both_signed_in in
     (selected = Normal true
      ∧ selectedAccountId (this st1) = Some "id-alice"
      ∧ accessToken (this st1) = None
      ∧ tokenExpiry (this st1) = None)
     ∧ match Msal.removeAccount (msalApp (this Sample.both_signed_in))
               Sample.alice with
       | inr _ =>
           removed = Normal true
           ∧ if bool_decide
                  (selectedAccountId (this Sample.both_signed_in)
                   = Some "id-alice")
             then selectedAccountId (this st2) = None
                  ∧ accessToken (this st2) = None
                  ∧ tokenExpiry (this st2) = None
             else selectedAccountId (this st2)
                  = selectedAccountId (this Sample.both_signed_in)
                  ∧ accessToken (this st2)
                    = accessToken (this Sample.both_signed_in)
                  ∧ tokenExpiry (this st2)
                    = tokenExpiry (this Sample.both_signed_in)
       | inl _ =>
           removed = Normal false
           ∧ selectedAccountId (this st2)
             = selectedAccountId (this Sample.both_signed_in)
           ∧ accessToken (this st2) = accessToken (this Sample.both_signed_in)
           ∧ tokenExpiry (this st2) = tokenExpiry (this Sample.both_signed_in)
       end).
Proof.
  assert (find_account "id-alice"
            (Msal.getAllAccounts (msalApp (this Sample.both_signed_in)))
          = Some Sample.alice) as Hfound by (vm_compute; reflexivity).
  split; [exact Hfound|].
  exact (token_cleared_with_selection Sample.both_signed_in "id-alice"
           Sample.alice Hfound).
Defined.

(** On that manager, selecting alice, or removing her while she is the
    selected account, leaves no cached token. *)
Example token_cleared_on_sample :
  accessToken (this Sample.both_signed_in) = Some "token-bob"
  ∧ fst (selectAccount "id-alice" Sample.both_signed_in) = Normal true
  ∧ accessToken (this (snd (selectAccount "id-alice" Sample.both_signed_in)))
    = None
  ∧ fst (removeAccount "id-alice" Sample.both_signed_in) = Normal true
  ∧ selectedAccountId
      (this (snd (removeAccount "id-alice" Sample.both_signed_in)))
    = None
  ∧ accessToken (this (snd (removeAccount "id-alice" Sample.both_signed_in)))
    = None.
Proof. by vm_compute. Qed.

(** C6 as stated fails: with alice selected and bob signing in at the
    prompt, the device-code flow keeps alice selected, while
    [expandToWorkAccountScopes] returns [true] and selects bob. *)
Lemma expandToWorkAccountScopes_replaces_selection :
  selectedAccountId (this Sample.alice_signed_in) = Some "id-alice"
  ∧ selectedAccountId
      (this (snd (acquireTokenByDeviceCode false Sample.alice_signed_in)))
    = Some "id-alice"
  ∧ fst (expandToWorkAccountScopes endpointsData false Sample.alice_signed_in)
    = Normal true
  ∧ selectedAccountId
      (this (snd (expandToWorkAccountScopes endpointsData false
                    Sample.alice_signed_in)))
    = Some "id-bob".
Proof. by vm_compute. Qed.

(** On the machine whose keychain accepts writes, the expansion leaves the
    serialized cache and the pointer to bob in the keychain. *)
Example expandToWorkAccountScopes_persists :
  let st' :=
    snd (expandToWorkAccountScopes endpointsData false Sample.alice_signed_in) in
  scopes (this st') = buildAllScopes endpointsData
  ∧ keychain (world st') !! (SERVICE_NAME, TOKEN_CACHE_ACCOUNT)
    = Some "accounts:id-alice,id-bob"
  ∧ keychain (world st') !! (SERVICE_NAME, SELECTED_ACCOUNT_KEY)
    = Some (Json.stringify_accountId (Some "id-bob")).
Proof. by vm_compute. Qed.

(** With the keychain locked, neither save reaches its fallback file. *)
Lemma save_fallback_not_written_witness :
  keychain_faults (world Sample.started_locked)
  = Some Sample.locked :: [Some Sample.locked; Some Sample.locked;
                           Some Sample.locked]
  ∧ (fst (saveTokenCache Sample.started_locked) = Normal tt
     ∧ files (world (snd (saveTokenCache Sample.started_locked)))
       = files (world Sample.started_locked)
     ∧ events_since Sample.started_locked
         (snd (saveTokenCache Sample.started_locked))
       = [KeytarSetPassword SERVICE_NAME TOKEN_CACHE_ACCOUNT
            "accounts:id-alice,id-bob";
          Log Warn
            "Keychain save failed, falling back to file storage: keychain is locked";
          Log Err "Error saving token cache: fs is not defined"])
  ∧ fst (saveSelectedAccount Sample.started_locked) = Normal tt
  ∧ files (world (snd (saveSelectedAccount Sample.started_locked)))
    = files (world Sample.started_locked)
  ∧ events_since Sample.started_locked
      (snd (saveSelectedAccount Sample.started_locked))
    = [KeytarSetPassword SERVICE_NAME SELECTED_ACCOUNT_KEY
         (Json.stringify_accountId None);
       Log Warn
         "Keychain save failed for selected account, falling back to file storage: keychain is locked";
       Log Err "Error saving selected account: fs is not defined"].
Proof.
  split; [reflexivity|].
  exact (save_fallback_not_written Sample.started_locked Sample.locked _
           eq_refl).
Defined.

(** [logout] on the same machine: it throws, and the fallback file of the
    token cache is still there. *)
Example logout_leaves_fallback_file :
  fst (logout Sample.started_locked)
  = Throw (ReferenceError "fs is not defined")
  ∧ files (world (snd (logout Sample.started_locked))) !! FALLBACK_PATH
    = Some "accounts:id-alice"
  ∧ fst (getCurrentAccount (snd (logout Sample.started_locked)))
    = Normal None.
Proof. by vm_compute. Qed.

Lemma unknown_account_false_or_thrown_witness :
  (∀ acc, acc ∈ Msal.getAllAccounts (msalApp (this Sample.started)) →
          Msal.homeAccountId acc ≠ "id-carol")
  ∧ selectAccount "id-carol" Sample.started
    = (Normal false,
       traced [Log Err "Account with ID id-carol not found"] Sample.started)
  ∧ removeAccount "id-carol" Sample.started
    = (Normal false,
       traced [Log Err "Account with ID id-carol not found"] Sample.started)
  ∧ getTokenForAccount "id-carol" Sample.started
    = (Throw (Error "Account with ID id-carol not found"), Sample.started).
Proof.
  assert (∀ acc, acc ∈ Msal.getAllAccounts (msalApp (this Sample.started)) →
                 Msal.homeAccountId acc ≠ "id-carol") as Hunknown.
  { intros acc Hacc. apply elem_of_cons in Hacc as [->|Hacc]; [done|].
    apply elem_of_cons in Hacc as [->|Hacc]; [done|].
    by apply elem_of_nil in Hacc. }
  split; [exact Hunknown|].
  exact (unknown_account_false_or_thrown Sample.started "id-carol" Hunknown).
Defined.

(** * The further properties on the sample data *)


Lemma queries_keep_durable_state_witness :
  is_query (TestLogin Scenario.graph) = true
  ∧ durable (perform endpointsData Sample.started (TestLogin Scenario.graph))
    = durable Sample.started.
Proof.
  split; [reflexivity|].
  exact (queries_keep_durable_state endpointsData Sample.started
           (TestLogin Scenario.graph) eq_refl).
Defined.

Lemma probes_keep_token_record_witness :
  leaves_token (GetTokenForAccount "id-bob") = true
  ∧ token_record
      (perform endpointsData Scenario.alice_cached
         (GetTokenForAccount "id-bob"))
    = token_record Scenario.alice_cached.
Proof.
  split; [reflexivity|].
  exact (probes_keep_token_record endpointsData Scenario.alice_cached
           (GetTokenForAccount "id-bob") eq_refl).
Defined.

Lemma getCurrentAccount_honours_selection_witness :
  selectedAccountId (this Scenario.bob_selected) = Some "id-bob"
  ∧ "id-bob" ≠ EmptyString
  ∧ match find_account "id-bob"
            (Msal.getAllAccounts (msalApp (this Scenario.bob_selected))) with
    | Some account =>
        getCurrentAccount Scenario.bob_selected
        = (Normal (Some account), Scenario.bob_selected)
    | None =>
        match Msal.getAllAccounts (msalApp (this Scenario.bob_selected)) with
        | [] =>
            getCurrentAccount Scenario.bob_selected
            = (Normal None, Scenario.bob_selected)
        | first :: _ =>
            getCurrentAccount Scenario.bob_selected
            = (Normal (Some first),
               traced [Log Warn ("Selected account " +:+ "id-bob"
                                 +:+ " not found, falling back to first account")]
                 Scenario.bob_selected)
        end
    end.
Proof.
  assert (selectedAccountId (this Scenario.bob_selected) = Some "id-bob")
    as Hselected by (vm_compute; reflexivity).
  assert ("id-bob" ≠ EmptyString) as Hne by done.
  split; [exact Hselected|]. split; [exact Hne|].
  exact (getCurrentAccount_honours_selection Scenario.bob_selected "id-bob"
           Hselected Hne).
Defined.

(** With bob selected the current account is bob; with a selection the
    client does not list it is alice, the first listed account, and the
    log gets one warning. *)
Example getCurrentAccount_on_sample :
  fst (getCurrentAccount Sample.started) = Normal (Some Sample.alice)
  ∧ fst (getCurrentAccount Scenario.bob_selected) = Normal (Some Sample.bob)
  ∧ fst (getCurrentAccount Scenario.carol_selected)
    = Normal (Some Sample.alice)
  ∧ events_since Scenario.carol_selected
      (snd (getCurrentAccount Scenario.carol_selected))
    = [Log Warn
         "Selected account id-carol not found, falling back to first account"]
  ∧ selectedAccountId (this (snd (getCurrentAccount Scenario.carol_selected)))
    = Some "id-carol".
Proof. by vm_compute. Qed.

Lemma selectAccount_then_current_witness :
  find_account "id-bob" (Msal.getAllAccounts (msalApp (this Sample.started)))
  = Some Sample.bob
  ∧ "id-bob" ≠ EmptyString
  ∧ getCurrentAccount (snd (selectAccount "id-bob" Sample.started))
    = (Normal (Some Sample.bob), snd (selectAccount "id-bob" Sample.started)).
Proof.
  assert (find_account "id-bob"
            (Msal.getAllAccounts (msalApp (this Sample.started)))
          = Some Sample.bob) as Hfound by (vm_compute; reflexivity).
  assert ("id-bob" ≠ EmptyString) as Hne by done.
  split; [exact Hfound|]. split; [exact Hne|].
  exact (selectAccount_then_current Sample.started "id-bob" Sample.bob
           Hfound Hne).
Defined.


Lemma getToken_failure_keeps_token_witness :
  fst (getToken true Scenario.alice_cached) = Throw SilentAcquisitionFailed
  ∧ token_record (snd (getToken true Scenario.alice_cached))
    = token_record Scenario.alice_cached.
Proof.
  assert (fst (getToken true Scenario.alice_cached)
          = Throw SilentAcquisitionFailed) as Hthrown
    by (vm_compute; reflexivity).
  split; [exact Hthrown|].
  exact (getToken_failure_keeps_token Scenario.alice_cached true
           SilentAcquisitionFailed Hthrown).
Defined.

(** After the forced refresh failed, alice's token is still the cached
    one and the next plain [getToken] returns it. *)
Example getToken_after_failed_refresh :
  fst (getToken false (snd (getToken true Scenario.alice_cached)))
  = Normal (Some "token-alice").
Proof. by vm_compute. Qed.

Lemma getTokenForAccount_listed_witness :
  find_account "id-bob" (Msal.getAllAccounts (msalApp (this Sample.started)))
  = Some Sample.bob
  ∧ (let request :=
       {| Msal.request_account := Sample.bob;
          Msal.request_scopes := scopes (this Sample.started) |} in
     let '(answer, p) :=
       Msal.acquireTokenSilent (msalApp (this Sample.started)) request in
     let '(result, st') := getTokenForAccount "id-bob" Sample.started in
     this st' = with_msalApp p (this Sample.started)
     ∧ silent_requests (events_since Sample.started st') = [request]
     ∧ device_requests (events_since Sample.started st') = []
     ∧ result = match answer with
                | inl e => Throw e
                | inr response => Normal (Some (Msal.accessToken response))
                end).
Proof.
  assert (find_account "id-bob"
            (Msal.getAllAccounts (msalApp (this Sample.started)))
          = Some Sample.bob) as Hfound by (vm_compute; reflexivity).
  split; [exact Hfound|].
  exact (getTokenForAccount_listed Sample.started "id-bob" Sample.bob Hfound).
Defined.

(** Asked for bob's token while alice's is cached, the manager passes on
    the client's own error and keeps alice's token. *)
Example getTokenForAccount_on_sample :
  fst (getTokenForAccount "id-bob" Scenario.alice_cached)
  = Throw (Error "no_tokens_found")
  ∧ accessToken (this (snd (getTokenForAccount "id-bob" Scenario.alice_cached)))
    = Some "token-alice".
Proof. by vm_compute. Qed.

Lemma selectAccount_persists_pointer_witness :
  find_account "id-bob" (Msal.getAllAccounts (msalApp (this Sample.started)))
  = Some Sample.bob
  ∧ fst (getSelectedAccountId (snd (selectAccount "id-bob" Sample.started)))
    = Normal (Some "id-bob")
  ∧ keychain (world (snd (selectAccount "id-bob" Sample.started)))
      !! (SERVICE_NAME, SELECTED_ACCOUNT_KEY)
    = (if accepts (keychain_faults (world Sample.started)) 0
       then Some (Json.stringify_accountId (Some "id-bob"))
       else keychain (world Sample.started)
              !! (SERVICE_NAME, SELECTED_ACCOUNT_KEY))
  ∧ keychain (world (snd (selectAccount "id-bob" Sample.started)))
      !! (SERVICE_NAME, TOKEN_CACHE_ACCOUNT)
    = keychain (world Sample.started) !! (SERVICE_NAME, TOKEN_CACHE_ACCOUNT)
  ∧ files (world (snd (selectAccount "id-bob" Sample.started)))
    = files (world Sample.started).
Proof.
  assert (find_account "id-bob"
            (Msal.getAllAccounts (msalApp (this Sample.started)))
          = Some Sample.bob) as Hfound by (vm_compute; reflexivity).
  split; [exact Hfound|].
  exact (selectAccount_persists_pointer Sample.started "id-bob" Sample.bob
           Hfound).
Defined.

(** On the machine with the locked keychain, selecting bob changes the
    selection in memory and persists it nowhere. *)
Example selectAccount_on_locked_keychain :
  fst (selectAccount "id-bob" Sample.started_locked) = Normal true
  ∧ selectedAccountId (this (snd (selectAccount "id-bob" Sample.started_locked)))
    = Some "id-bob"
  ∧ keychain (world (snd (selectAccount "id-bob" Sample.started_locked)))
      !! (SERVICE_NAME, SELECTED_ACCOUNT_KEY)
    = None
  ∧ files (world (snd (selectAccount "id-bob" Sample.started_locked)))
      !! SELECTED_ACCOUNT_PATH
    = None.
Proof. by vm_compute. Qed.

(** The login test on the sample data: with alice's token the Graph
    endpoint answers and the report carries her data; a manager with no
    account reports the failure of [getToken]. *)
Example testLogin_on_sample :
  fst (testLogin Scenario.graph Sample.started)
  = Normal {| Login.success := true;
              Login.message := "Login successful";
              Login.userData :=
                Some {| Login.displayName := "Alice";
                        Login.userPrincipalName := "alice@contoso.com" |} |}
  ∧ fst (testLogin Scenario.graph
           (Sample.fresh Sample.two_logins Sample.quiet_world))
    = Normal {| Login.success := false;
                Login.message := "Login failed: No valid token found";
                Login.userData := None |}
  ∧ fst (testLogin Scenario.graph (Sample.injected "stale-token"))
    = Normal {| Login.success := false;
                Login.message :=
                  "Login successful but Graph API access failed: 401";
                Login.userData := None |}.
Proof. by vm_compute. Qed.

(** The work-account probe on the sample data: one silent request for the
    first scope of the flagged entries of the shipped catalog. *)
Example hasWorkAccountPermissions_on_sample :
  fst (hasWorkAccountPermissions endpointsData Sample.started) = Normal true
  ∧ fst (hasWorkAccountPermissions endpointsData Scenario.alice_cached)
    = Normal false
  ∧ fst (hasWorkAccountPermissions endpointsData
           (Sample.fresh Sample.two_logins Sample.quiet_world))
    = Normal false
  ∧ length (silent_requests
              (events_since Sample.started
                 (snd (hasWorkAccountPermissions endpointsData
                         Sample.started))))
    = 1.
Proof. by vm_compute. Qed.

(** [logout] on a machine whose keychain is locked asks for the first
    deletion only and leaves the keychain as it was. *)
Example logout_on_locked_keychain :
  keychain_deletes
    (events_since Sample.started_locked (snd (logout Sample.started_locked)))
  = [TOKEN_CACHE_ACCOUNT]
  ∧ keychain_deletes
      (events_since Sample.started (snd (logout Sample.started)))
    = [TOKEN_CACHE_ACCOUNT; SELECTED_ACCOUNT_KEY].
Proof. by vm_compute. Qed.
